(** * Token lifecycle of the auth service

    A shallow embedding of [controllers/authController.js] (signup, login,
    refresh, logout) and [middleware/validateToken.js], together with the
    PostgreSQL tables they touch and the contract of the two libraries they
    call ([jsonwebtoken] and [bcrypt]).

    - Strings are [string]; a request field that may be absent is an
      [option string], and [!x] is [negb (js_truthy x)]. A field of
      another JSON type takes the paths of a string (node-postgres sends
      it as text, [jwt.verify] throws [JsonWebTokenError] for it), except
      the password: bcrypt throws on a value that is not a string, so a
      password is a [JsValue].
    - The tables [users] and [refresh_tokens] are lists of rows, oldest
      first; no uniqueness constraint is assumed on [refresh_tokens].
    - [pool.query] either runs its statement or throws; which of the two
      happens is read from a schedule of faults carried by the world.
    - [Date.now()] and the bcrypt salt are explicit arguments.
    - [process.env] is the record [Env]; the expiry settings are already
      converted to seconds. *)

From Stdlib Require Import String Ascii List ZArith Bool Lia.
Import ListNotations.
Open Scope string_scope.
Open Scope Z_scope.

(* ================================================================== *)
(** ** JavaScript values used by the handlers *)

(** [!v] is true for [undefined] and for the empty string. *)
Definition js_truthy (v : option string) : bool :=
  match v with
  | Some (String _ _) => true
  | _ => false
  end.

(** The string held by a field known to be present. *)
Definition str (v : option string) : string :=
  match v with
  | Some s => s
  | None => EmptyString
  end.

(** A JSON value where its type matters: a string, or anything else (a
    number, a boolean, null, an object, an array, or nothing at all), of
    which only what [!v] makes of it is kept. *)
Inductive JsValue : Type :=
| JsString (s : string)
| JsOther (truthy : bool).

(** [!v] for such a value is [negb (js_truthy_value v)]. *)
Definition js_truthy_value (v : JsValue) : bool :=
  match v with
  | JsString s => js_truthy (Some s)
  | JsOther truthy => truthy
  end.

(** The value as a string, when [typeof v === 'string']. *)
Definition as_string (v : JsValue) : option string :=
  match v with
  | JsString s => Some s
  | JsOther _ => None
  end.

(** [s.split(sep)] for a one-character separator: the pieces between
    consecutive separators, empty pieces included; never the empty list. *)
Fixpoint split (sep : ascii) (s : string) : list string :=
  match s with
  | EmptyString => [EmptyString]
  | String c s' =>
      if Ascii.eqb c sep then EmptyString :: split sep s'
      else match split sep s' with
           | [] => [String c EmptyString]
           | piece :: pieces => String c piece :: pieces
           end
  end.

(** [c] does not occur in [s]. *)
Fixpoint lacks (c : ascii) (s : string) : bool :=
  match s with
  | EmptyString => true
  | String d s' => negb (Ascii.eqb d c) && lacks c s'
  end.

(* ================================================================== *)
(** ** The jsonwebtoken library *)

(** The two error classes the handlers tell apart by [error.name]. The
    library's third class, [NotBeforeError], needs a validly signed token
    with an [nbf] claim; [jwt.sign] is never asked for one here, so
    [jwt.verify] is given these two ways to throw. *)
Inductive JwtError : Type :=
| JsonWebTokenError
| TokenExpiredError.

(** The decoded payload: what was signed, plus the [iat] and [exp] claims
    the library adds. *)
Record Payload : Type := mkPayload {
  userId : Z;
  email : string;
  iat : Z;
  exp : Z
}.

(** [jwt.sign({userId, email}, secret, {expiresIn})] at clock [now], and
    [jwt.verify(token, secret)] at clock [now]. *)
Class JwtLib : Type := {
  jwt_sign : Z -> string -> string -> Z -> Z -> string;
  jwt_verify : string -> string -> Z -> JwtError + Payload
}.

(** What the handlers rely on (see the comment on [jwt.verify] in
    [refresh]): a token is a non-empty word without blanks; verification
    under the signing secret returns the payload until [exp] and throws
    [TokenExpiredError] from then on; verification under any other secret
    throws [JsonWebTokenError] (signatures are unforgeable). *)
Class JwtLaws (J : JwtLib) : Prop := {
  jwt_sign_word :
    forall uid mail secret ttl now,
      jwt_sign uid mail secret ttl now <> EmptyString /\
      lacks " " (jwt_sign uid mail secret ttl now) = true;
  jwt_verify_sign :
    forall uid mail secret ttl now now',
      now' < now + ttl ->
      jwt_verify (jwt_sign uid mail secret ttl now) secret now' =
      inr (mkPayload uid mail now (now + ttl));
  jwt_verify_expired :
    forall uid mail secret ttl now now',
      now + ttl <= now' ->
      jwt_verify (jwt_sign uid mail secret ttl now) secret now' =
      inl TokenExpiredError;
  jwt_verify_other_secret :
    forall uid mail secret secret' ttl now now',
      secret <> secret' ->
      jwt_verify (jwt_sign uid mail secret ttl now) secret' now' =
      inl JsonWebTokenError
}.

(** ** The bcrypt library *)

(** [bcrypt.hash(password, saltRounds)] with the salt it draws made
    explicit, and [bcrypt.compare(password, hash)]. *)
Class Bcrypt : Type := {
  bcrypt_hash : string -> Z -> string -> string;
  bcrypt_compare : string -> string -> bool
}.

(* ================================================================== *)
(** ** Configuration, database and world *)

Record Env : Type := mkEnv {
  JWT_SECRET : string;
  JWT_EXPIRES_IN : Z;
  JWT_REFRESH_SECRET : string;
  JWT_REFRESH_EXPIRES_IN : Z
}.

Record UserRow : Type := mkUserRow {
  row_id : Z;
  row_email : string;
  row_password : string;
  row_first_name : string;
  row_last_name : string
}.

Record TokenRow : Type := mkTokenRow {
  user_id : Z;
  token : string
}.

Record Database : Type := mkDatabase {
  users : list UserRow;
  refresh_tokens : list TokenRow;
  users_id_seq : Z
}.

(** [faults] tells, query by query, whether [pool.query] throws ([true])
    or runs; once the schedule is used up every query runs. *)
Record World : Type := mkWorld {
  db : Database;
  faults : list bool
}.

(** Everything a handler can catch: the errors of [jwt.verify], of
    [pool.query], of reading a property of [undefined], and of bcrypt
    given data that is not a string. *)
Inductive Exn : Type :=
| JwtExn (e : JwtError)
| QueryError
| TypeError
| BcryptError.

(** [error.name]. *)
Definition error_name (e : Exn) : string :=
  match e with
  | JwtExn JsonWebTokenError => "JsonWebTokenError"
  | JwtExn TokenExpiredError => "TokenExpiredError"
  | QueryError => "Error"
  | TypeError => "TypeError"
  | BcryptError => "Error"
  end.

(* ================================================================== *)
(** ** Responses *)

Record UserView : Type := mkUserView {
  view_id : Z;
  view_email : string;
  view_firstName : string;
  view_lastName : string
}.

(** The JSON bodies the handlers send. *)
Inductive Body : Type :=
| ErrorBody (error : string)
| MessageBody (message : string)
| SessionBody (message : string) (user : UserView)
              (accessToken refreshToken : string)
| AccessBody (accessToken : string).

Record Response : Type := mkResponse {
  status : Z;
  body : Body
}.

(** The tokens a body hands to the caller. *)
Definition body_tokens (b : Body) : list string :=
  match b with
  | SessionBody _ _ a r => [a; r]
  | AccessBody a => [a]
  | ErrorBody _ | MessageBody _ => []
  end.

(** [req.user] as the middleware sets it. *)
Record ReqUser : Type := mkReqUser {
  req_userId : Z;
  req_email : string
}.

(** A middleware either answers the request or calls [next()] with
    [req.user] set. *)
Inductive Outcome : Type :=
| Responded (r : Response)
| Next (user : ReqUser).

(* ================================================================== *)
(** ** Computations that read and write the world and may throw *)

Definition M (A : Type) : Type := World -> (Exn + A) * World.

Definition ret {A : Type} (a : A) : M A := fun w => (inr a, w).

Definition throw {A : Type} (e : Exn) : M A := fun w => (inl e, w).

Definition bind {A B : Type} (m : M A) (k : A -> M B) : M B :=
  fun w =>
    match m w with
    | (inr a, w') => k a w'
    | (inl e, w') => (inl e, w')
    end.

Declare Scope js_scope.
Delimit Scope js_scope with js.
Notation "x <- m ;; k" := (bind m (fun x => k))
  (at level 61, m at next level, right associativity) : js_scope.
Notation "m ;; k" := (bind m (fun _ => k))
  (at level 61, right associativity) : js_scope.
Open Scope js_scope.

(** [try { m } catch (error) { h error }] for a handler whose catch block
    only answers the request. *)
Definition try_catch {A : Type} (m : M A) (h : Exn -> A) : World -> A * World :=
  fun w =>
    match m w with
    | (inr a, w') => (a, w')
    | (inl e, w') => (h e, w')
    end.

(** A call that returns or throws without touching the world. *)
Definition lift {A : Type} (r : JwtError + A) : M A :=
  match r with
  | inr a => ret a
  | inl e => throw (JwtExn e)
  end.

(** [pool.query(stmt)]: consult the fault schedule, then run [stmt]. *)
Definition pool_query {A : Type} (stmt : Database -> A * Database) : M A :=
  fun w =>
    match faults w with
    | true :: fs => (inl QueryError, mkWorld (db w) fs)
    | false :: fs =>
        let (a, d) := stmt (db w) in (inr a, mkWorld d fs)
    | [] =>
        let (a, d) := stmt (db w) in (inr a, mkWorld d [])
    end.

(** *** The SQL statements *)

(** [SELECT * FROM users WHERE email = $1] *)
Definition select_users (mail : string) (d : Database)
  : list UserRow * Database :=
  (filter (fun u => String.eqb (row_email u) mail) (users d), d).

(** [INSERT INTO users (email, password, first_name, last_name)
     VALUES ($1, $2, $3, $4) RETURNING id, email, first_name, last_name] *)
Definition insert_user (mail hashed first last : string) (d : Database)
  : list UserRow * Database :=
  let u := mkUserRow (users_id_seq d) mail hashed first last in
  ([u], mkDatabase (users d ++ [u]) (refresh_tokens d) (users_id_seq d + 1)).

(** [INSERT INTO refresh_tokens (user_id, token) VALUES ($1, $2)] *)
Definition insert_refresh_token (uid : Z) (tok : string) (d : Database)
  : unit * Database :=
  (tt, mkDatabase (users d) (refresh_tokens d ++ [mkTokenRow uid tok])
                  (users_id_seq d)).

(** [SELECT * FROM refresh_tokens WHERE token = $1 AND user_id = $2] *)
Definition select_refresh_token (tok : string) (uid : Z) (d : Database)
  : list TokenRow * Database :=
  (filter (fun r => String.eqb (token r) tok && Z.eqb (user_id r) uid)
          (refresh_tokens d), d).

(** [DELETE FROM refresh_tokens WHERE token = $1] *)
Definition delete_refresh_token (tok : string) (d : Database)
  : unit * Database :=
  (tt, mkDatabase (users d)
                  (filter (fun r => negb (String.eqb (token r) tok))
                          (refresh_tokens d))
                  (users_id_seq d)).

(* ================================================================== *)
(** ** The handlers *)

Section Handlers.

Context {J : JwtLib} {B : Bcrypt}.

(** Access token: signed with [JWT_SECRET], short-lived. *)
Definition generateAccessToken (env : Env) (now : Z) (uid : Z) (mail : string)
  : string :=
  jwt_sign uid mail (JWT_SECRET env) (JWT_EXPIRES_IN env) now.

(** Refresh token: signed with [JWT_REFRESH_SECRET], long-lived. *)
Definition generateRefreshToken (env : Env) (now : Z) (uid : Z) (mail : string)
  : string :=
  jwt_sign uid mail (JWT_REFRESH_SECRET env) (JWT_REFRESH_EXPIRES_IN env) now.

Definition internal_error : Response :=
  mkResponse 500 (ErrorBody "Internal server error").

Definition view_of (u : UserRow) : UserView :=
  mkUserView (row_id u) (row_email u) (row_first_name u) (row_last_name u).

(** [await bcrypt.hash(data, saltRounds)]: the promise is rejected unless
    [data] is a string. *)
Definition bcrypt_hash_js (data : JsValue) (rounds : Z) (salt : string)
  : M string :=
  match data with
  | JsString s => ret (bcrypt_hash s rounds salt)
  | JsOther _ => throw BcryptError
  end.

(** [await bcrypt.compare(data, hash)]: likewise. *)
Definition bcrypt_compare_js (data : JsValue) (hashed : string) : M bool :=
  match data with
  | JsString s => ret (bcrypt_compare s hashed)
  | JsOther _ => throw BcryptError
  end.

Record SignupBody : Type := mkSignupBody {
  signup_email : option string;
  signup_password : JsValue;
  signup_firstName : option string;
  signup_lastName : option string
}.

Definition signup (env : Env) (now : Z) (salt : string) (b : SignupBody)
  : World -> Response * World :=
  try_catch
    (if negb (js_truthy (signup_email b))
        || negb (js_truthy_value (signup_password b))
        || negb (js_truthy (signup_firstName b))
        || negb (js_truthy (signup_lastName b))
     then ret (mkResponse 400 (ErrorBody "All fields are required"))
     else
       userExists <- pool_query (select_users (str (signup_email b))) ;;
       if (0 <? Z.of_nat (length userExists))
       then ret (mkResponse 409 (ErrorBody "User already exists"))
       else
         let saltRounds := 10 in
         hashedPassword <-
           bcrypt_hash_js (signup_password b) saltRounds salt ;;
         newUser <- pool_query
                      (insert_user (str (signup_email b)) hashedPassword
                                   (str (signup_firstName b))
                                   (str (signup_lastName b))) ;;
         match newUser with
         | [] => throw TypeError
         | user :: _ =>
             let accessToken :=
               generateAccessToken env now (row_id user) (row_email user) in
             let refreshToken :=
               generateRefreshToken env now (row_id user) (row_email user) in
             pool_query (insert_refresh_token (row_id user) refreshToken) ;;
             ret (mkResponse 201
                    (SessionBody "User created successfully" (view_of user)
                                 accessToken refreshToken))
         end)
    (fun _ => internal_error).

Record LoginBody : Type := mkLoginBody {
  login_email : option string;
  login_password : JsValue
}.

Definition login (env : Env) (now : Z) (b : LoginBody)
  : World -> Response * World :=
  try_catch
    (if negb (js_truthy (login_email b))
        || negb (js_truthy_value (login_password b))
     then ret (mkResponse 400 (ErrorBody "Email and password are required"))
     else
       result <- pool_query (select_users (str (login_email b))) ;;
       match result with
       | [] => ret (mkResponse 401 (ErrorBody "Invalid credentials"))
       | user :: _ =>
           validPassword <-
             bcrypt_compare_js (login_password b) (row_password user) ;;
           if negb validPassword
           then ret (mkResponse 401 (ErrorBody "Invalid credentials"))
           else
             let accessToken :=
               generateAccessToken env now (row_id user) (row_email user) in
             let refreshToken :=
               generateRefreshToken env now (row_id user) (row_email user) in
             pool_query (insert_refresh_token (row_id user) refreshToken) ;;
             ret (mkResponse 200
                    (SessionBody "Login successful" (view_of user)
                                 accessToken refreshToken))
       end)
    (fun _ => internal_error).

Definition refresh (env : Env) (now : Z) (refreshToken : option string)
  : World -> Response * World :=
  try_catch
    (if negb (js_truthy refreshToken)
     then ret (mkResponse 401 (ErrorBody "Refresh token required"))
     else
       decoded <- lift (jwt_verify (str refreshToken)
                                   (JWT_REFRESH_SECRET env) now) ;;
       tokenExists <- pool_query
                        (select_refresh_token (str refreshToken)
                                              (userId decoded)) ;;
       if (Z.of_nat (length tokenExists) =? 0)
       then ret (mkResponse 401 (ErrorBody "Invalid refresh token"))
       else
         let newAccessToken :=
           generateAccessToken env now (userId decoded) (email decoded) in
         ret (mkResponse 200 (AccessBody newAccessToken)))
    (fun error =>
       if String.eqb (error_name error) "JsonWebTokenError"
          || String.eqb (error_name error) "TokenExpiredError"
       then mkResponse 401 (ErrorBody "Invalid or expired refresh token")
       else internal_error).

Definition logout (refreshToken : option string)
  : World -> Response * World :=
  try_catch
    (if negb (js_truthy refreshToken)
     then ret (mkResponse 400 (ErrorBody "Refresh token required"))
     else
       pool_query (delete_refresh_token (str refreshToken)) ;;
       ret (mkResponse 200 (MessageBody "Logout successful")))
    (fun _ => internal_error).

(** [validateToken(req, res, next)], given [req.headers['authorization']]. *)
Definition validateToken (env : Env) (now : Z) (authHeader : option string)
  : World -> Outcome * World :=
  try_catch
    (if negb (js_truthy authHeader)
     then ret (Responded (mkResponse 401 (ErrorBody "Access token required")))
     else
       let token := nth_error (split " " (str authHeader)) 1 in
       if negb (js_truthy token)
       then ret (Responded (mkResponse 401 (ErrorBody "Invalid token format")))
       else
         decoded <- lift (jwt_verify (str token) (JWT_SECRET env) now) ;;
         ret (Next (mkReqUser (userId decoded) (email decoded))))
    (fun error =>
       if String.eqb (error_name error) "JsonWebTokenError"
       then Responded (mkResponse 401 (ErrorBody "Invalid token"))
       else if String.eqb (error_name error) "TokenExpiredError"
       then Responded (mkResponse 401 (ErrorBody "Token expired"))
       else Responded internal_error).

End Handlers.

(** Renewing several times in a row with one refresh token, at the given
    clock readings; the responses come back in order. *)
Fixpoint renew_many {J : JwtLib} (env : Env) (refreshToken : option string)
  (clocks : list Z) (w : World) : list Response * World :=
  match clocks with
  | [] => ([], w)
  | now :: later =>
      let (r, w1) := refresh env now refreshToken w in
      let (rs, w2) := renew_many env refreshToken later w1 in
      (r :: rs, w2)
  end.

(** The first [n] queries issued in [w] reach the database. *)
Definition up (n : nat) (w : World) : Prop :=
  forallb negb (firstn n (faults w)) = true.

(** Some row of the table carries this token for this user. *)
Definition has_record (tok : string) (uid : Z) (d : Database) : Prop :=
  exists r, In r (refresh_tokens d) /\ token r = tok /\ user_id r = uid.

(** A handler run that answers with a session: the user shown, the access
    token and the refresh token, and the world it leaves. *)
Definition issues (run : World -> Response * World) (w : World)
  (v : UserView) (access refreshTok : string) (w' : World) : Prop :=
  exists st msg, run w = (mkResponse st (SessionBody msg v access refreshTok), w').

(** A session issued by [login] or [signup] at clock [now]. *)
Definition session_issued {J : JwtLib} {B : Bcrypt} (env : Env) (now : Z)
  (w : World) (v : UserView) (access refreshTok : string) (w' : World)
  : Prop :=
  (exists b, issues (login env now b) w v access refreshTok w') \/
  (exists salt b, issues (signup env now salt b) w v access refreshTok w').

(* ================================================================== *)
(** ** A symbolic jsonwebtoken and bcrypt

    Perfect cryptography in the Dolev-Yao style: a token spells out, in a
    blank-free alphabet, the payload and the secret it was signed with,
    and verification compares secrets. It shows that [JwtLaws] can be met
    and gives the handlers something to run on. *)

Module Symbolic.

Definition bit (b : bool) : ascii := if b then "1"%char else "0"%char.

Definition is_one (c : ascii) : bool := Ascii.eqb c "1".

Fixpoint enc_pos (p : positive) : string :=
  match p with
  | xH => EmptyString
  | xO q => String "0" (enc_pos q)
  | xI q => String "1" (enc_pos q)
  end.

Fixpoint dec_pos (s : string) : option positive :=
  match s with
  | EmptyString => Some xH
  | String c s' =>
      match dec_pos s' with
      | Some q =>
          if Ascii.eqb c "0" then Some (xO q)
          else if Ascii.eqb c "1" then Some (xI q)
          else None
      | None => None
      end
  end.

Definition enc_Z (z : Z) : string :=
  match z with
  | Z0 => "z"
  | Zpos p => String "p" (enc_pos p)
  | Zneg p => String "n" (enc_pos p)
  end.

Definition dec_Z (s : string) : option Z :=
  match s with
  | EmptyString => None
  | String c s' =>
      if Ascii.eqb c "z" then
        match s' with EmptyString => Some Z0 | _ => None end
      else if Ascii.eqb c "p" then option_map Zpos (dec_pos s')
      else if Ascii.eqb c "n" then option_map Zneg (dec_pos s')
      else None
  end.

Definition enc_ascii (c : ascii) (rest : string) : string :=
  let (b0, b1, b2, b3, b4, b5, b6, b7) := c in
  String (bit b0) (String (bit b1) (String (bit b2) (String (bit b3)
  (String (bit b4) (String (bit b5) (String (bit b6) (String (bit b7)
   rest))))))).

Fixpoint enc_string (s : string) : string :=
  match s with
  | EmptyString => EmptyString
  | String c s' => enc_ascii c (enc_string s')
  end.

Fixpoint dec_string (s : string) : option string :=
  match s with
  | EmptyString => Some EmptyString
  | String c0 (String c1 (String c2 (String c3
    (String c4 (String c5 (String c6 (String c7 rest))))))) =>
      match dec_string rest with
      | Some r =>
          Some (String (Ascii (is_one c0) (is_one c1) (is_one c2) (is_one c3)
                              (is_one c4) (is_one c5) (is_one c6) (is_one c7))
                       r)
      | None => None
      end
  | _ => None
  end.

Definition sign (uid : Z) (mail secret : string) (ttl now : Z) : string :=
  enc_Z uid ++ "." ++ enc_string mail ++ "." ++ enc_Z now ++ "."
  ++ enc_Z (now + ttl) ++ "." ++ enc_string secret.

Definition verify (tok secret : string) (now : Z) : JwtError + Payload :=
  match split "." tok with
  | [u; m; i; x; s] =>
      match dec_Z u, dec_string m, dec_Z i, dec_Z x, dec_string s with
      | Some uid, Some mail, Some issued, Some expiry, Some key =>
          if negb (String.eqb key secret) then inl JsonWebTokenError
          else if expiry <=? now then inl TokenExpiredError
          else inr (mkPayload uid mail issued expiry)
      | _, _, _, _, _ => inl JsonWebTokenError
      end
  | _ => inl JsonWebTokenError
  end.

#[export] Instance jwt : JwtLib := {| jwt_sign := sign; jwt_verify := verify |}.

#[export] Instance bcrypt : Bcrypt := {|
  bcrypt_hash := fun password _ _ => String "$" password;
  bcrypt_compare := fun password hashed =>
                      String.eqb hashed (String "$" password)
|}.

(** A configured service and a database with one account. *)
Definition env0 : Env := mkEnv "access-secret" 900 "refresh-secret" 604800.

Definition alice : UserRow :=
  mkUserRow 42 "a@x.com" (String "$" "pw") "Alice" "A".

Definition db0 : Database := mkDatabase [alice] [] 43.

Definition w0 : World := mkWorld db0 [].

Definition alice_login : LoginBody :=
  mkLoginBody (Some "a@x.com") (JsString "pw").

(** The tokens of Alice's login at clock 1000, and the world it leaves. *)
Definition access0 : string := generateAccessToken env0 1000 42 "a@x.com".

Definition refresh0 : string := generateRefreshToken env0 1000 42 "a@x.com".

Definition w1 : World := snd (login env0 1000 alice_login w0).

(** Her second login, at clock 2000. *)
Definition refresh1 : string := generateRefreshToken env0 2000 42 "a@x.com".

Definition w2 : World := snd (login env0 2000 alice_login w1).

(** A store where Alice's refresh token is filed under user 7. *)
Definition w_misfiled : World :=
  mkWorld (mkDatabase [alice] [mkTokenRow 7 refresh0] 43) [].

End Symbolic.

(* ================================================================== *)
(** ** Notions used by the properties of whole requests *)

(** What the comment on [bcrypt.compare] in [login] says of the library: a
    password matches every hash made of it. *)
Class BcryptLaws (B : Bcrypt) : Prop := {
  bcrypt_compare_hash :
    forall password rounds salt,
      bcrypt_compare password (bcrypt_hash password rounds salt) = true
}.

(** No two accounts share an email. *)
Definition emails_unique (d : Database) : Prop :=
  NoDup (map row_email (users d)).

(** The account row [signup] inserts for a request. *)
Definition new_account {B : Bcrypt} (salt : string) (b : SignupBody)
  (d : Database) : UserRow :=
  mkUserRow (users_id_seq d) (str (signup_email b))
            (bcrypt_hash (str (as_string (signup_password b))) 10 salt)
            (str (signup_firstName b)) (str (signup_lastName b)).

(** A signup request with its four fields given. *)
Definition complete (b : SignupBody) : Prop :=
  js_truthy (signup_email b) = true /\
  js_truthy_value (signup_password b) = true /\
  js_truthy (signup_firstName b) = true /\
  js_truthy (signup_lastName b) = true.

(** The part of the fault schedule used up between [w] and [w']: one entry
    for each query made. *)
Definition consumed (w w' : World) : list bool :=
  firstn (length (faults w) - length (faults w'))%nat (faults w).

Module Fixtures.
Import Symbolic.

(** Bob signs up at clock 1000 in the world where only Alice exists. *)
Definition bob_signup : SignupBody :=
  mkSignupBody (Some "b@x.com") (JsString "hunter2") (Some "Bob") (Some "B").

Definition bob : UserRow :=
  mkUserRow 43 "b@x.com" (String "$" "hunter2") "Bob" "B".

Definition w_bob : World := snd (signup env0 1000 "salt" bob_signup w0).

Definition bob_login : LoginBody :=
  mkLoginBody (Some "b@x.com") (JsString "hunter2").

End Fixtures.

(* ================================================================== *)
(** ** Strings *)

Lemma split_word (c : ascii) (s : string) :
  lacks c s = true -> split c s = [s].
Proof.
  induction s as [|d s IH]; simpl; intros H; [reflexivity|].
  apply andb_true_iff in H as [Hd Hs].
  apply negb_true_iff in Hd. rewrite Hd, (IH Hs). reflexivity.
Qed.

Lemma split_app (c : ascii) (a b : string) :
  lacks c a = true -> split c (a ++ String c b) = a :: split c b.
Proof.
  induction a as [|d a IH]; simpl; intros H.
  - rewrite Ascii.eqb_refl. reflexivity.
  - apply andb_true_iff in H as [Hd Ha].
    apply negb_true_iff in Hd. rewrite Hd, (IH Ha). reflexivity.
Qed.

Lemma lacks_app (c : ascii) (a b : string) :
  lacks c (a ++ b) = lacks c a && lacks c b.
Proof.
  induction a as [|d a IH]; simpl; [reflexivity|].
  rewrite IH, andb_assoc. reflexivity.
Qed.

(** The token the middleware extracts from a well-formed header. *)
Lemma bearer_token (tok : string) :
  lacks " " tok = true ->
  nth_error (split " " ("Bearer " ++ tok)) 1 = Some tok.
Proof.
  intros H.
  change ("Bearer " ++ tok) with ("Bearer" ++ String " " tok).
  rewrite split_app by reflexivity.
  rewrite (split_word _ _ H). reflexivity.
Qed.

Lemma js_truthy_some (s : string) :
  s <> EmptyString -> js_truthy (Some s) = true.
Proof. destruct s; [congruence | reflexivity]. Qed.

Lemma js_truthy_str (v : option string) :
  js_truthy v = true -> v = Some (str v) /\ str v <> EmptyString.
Proof.
  destruct v as [[|c s]|]; simpl; try discriminate.
  intros _. split; [reflexivity | discriminate].
Qed.

(* ================================================================== *)
(** ** Queries *)

Lemma up_S (n : nat) (w : World) :
  up (S n) w ->
  hd false (faults w) = false /\
  forall d, up n (mkWorld d (tl (faults w))).
Proof.
  unfold up. destruct w as [d0 [|[|] fs]]; simpl; intros H.
  - split; [reflexivity|]. intros _. destruct n; reflexivity.
  - discriminate.
  - split; [reflexivity|]. intros _. exact H.
Qed.

Lemma up_le (n m : nat) (w : World) : (n <= m)%nat -> up m w -> up n w.
Proof.
  unfold up. destruct w as [d fs]; simpl. revert m fs.
  induction n as [|n IH]; intros m fs Hle H; [reflexivity|].
  destruct m as [|m]; [lia|].
  destruct fs as [|f fs]; [reflexivity|]. simpl in *.
  apply andb_true_iff in H as [Hf H]. rewrite Hf. simpl.
  apply (IH m); [lia | exact H].
Qed.

Lemma up_nil (n : nat) (d : Database) : up n (mkWorld d []).
Proof. unfold up. destruct n; reflexivity. Qed.

(** A query that reaches the database runs its statement. *)
Lemma pool_query_up {A : Type} (stmt : Database -> A * Database) (w : World) :
  up 1 w ->
  pool_query stmt w =
  (inr (fst (stmt (db w))), mkWorld (snd (stmt (db w))) (tl (faults w))).
Proof.
  unfold up, pool_query. destruct w as [d [|[|] fs]]; simpl; intros H.
  - destruct (stmt d); reflexivity.
  - discriminate.
  - destruct (stmt d); reflexivity.
Qed.

(** A query that does not reach it throws and leaves the tables alone. *)
Lemma pool_query_down {A : Type} (stmt : Database -> A * Database)
  (d : Database) (fs : list bool) :
  pool_query stmt (mkWorld d (true :: fs)) = (inl QueryError, mkWorld d fs).
Proof. reflexivity. Qed.

Lemma filter_nil_iff {A : Type} (f : A -> bool) (l : list A) :
  filter f l = [] <-> forall x, In x l -> f x = false.
Proof.
  induction l as [|a l IH]; simpl.
  - split; [intros _ x [] | reflexivity].
  - destruct (f a) eqn:E; split.
    + discriminate.
    + intros H. specialize (H a (or_introl eq_refl)). congruence.
    + intros H x [<-|Hx]; [exact E | apply IH; assumption].
    + intros H. apply IH. intros x Hx. apply H. right. exact Hx.
Qed.

Lemma filter_all {A : Type} (f : A -> bool) (l : list A) :
  (forall x, In x l -> f x = true) -> filter f l = l.
Proof.
  induction l as [|a l IH]; simpl; intros H; [reflexivity|].
  rewrite (H a (or_introl eq_refl)). f_equal. apply IH.
  intros x Hx. apply H. right. exact Hx.
Qed.

(** Filtering by [f] first loses nothing that [g] keeps, if [g] implies
    [f]. *)
Lemma filter_absorb {A : Type} (f g : A -> bool) (l : list A) :
  (forall x, g x = true -> f x = true) ->
  filter g (filter f l) = filter g l.
Proof.
  intros H. induction l as [|a l IH]; simpl; [reflexivity|].
  destruct (f a) eqn:Ef; simpl.
  - rewrite IH. reflexivity.
  - destruct (g a) eqn:Eg; [|exact IH].
    apply H in Eg. congruence.
Qed.

Lemma length_zero_iff {A : Type} (l : list A) :
  (Z.of_nat (length l) =? 0) = true <-> l = [].
Proof.
  rewrite Z.eqb_eq. destruct l as [|a l]; simpl length.
  - split; reflexivity.
  - split; [lia | discriminate].
Qed.

(** The rows [refresh] looks for, as a proposition. *)
Lemma select_refresh_token_nil (tok : string) (uid : Z) (d : Database) :
  fst (select_refresh_token tok uid d) = [] <-> ~ has_record tok uid d.
Proof.
  unfold select_refresh_token, has_record. simpl.
  rewrite filter_nil_iff. split.
  - intros H (r & Hin & Ht & Hu). specialize (H r Hin).
    subst. rewrite String.eqb_refl, Z.eqb_refl in H. discriminate.
  - intros H r Hin.
    destruct (String.eqb_spec (token r) tok) as [Ht|]; [|reflexivity].
    destruct (Z.eqb_spec (user_id r) uid) as [Hu|]; [|reflexivity].
    exfalso. apply H. exists r. auto.
Qed.

(* ================================================================== *)
(** ** How each handler runs *)

Ltac inv H := inversion H; subst; clear H.

Section Runs.

Context {J : JwtLib} {B : Bcrypt}.

Lemma refresh_absent (env : Env) (now : Z) (tok : option string) (w : World) :
  js_truthy tok = false ->
  refresh env now tok w =
  (mkResponse 401 (ErrorBody "Refresh token required"), w).
Proof. intros H. unfold refresh, try_catch. rewrite H. reflexivity. Qed.

Lemma refresh_rejected (env : Env) (now : Z) (tok : option string) (w : World)
  (e : JwtError) :
  js_truthy tok = true ->
  jwt_verify (str tok) (JWT_REFRESH_SECRET env) now = inl e ->
  refresh env now tok w =
  (mkResponse 401 (ErrorBody "Invalid or expired refresh token"), w).
Proof.
  intros Ht He. unfold refresh, try_catch, bind. rewrite Ht, He. simpl.
  destruct e; reflexivity.
Qed.

Lemma refresh_verified (env : Env) (now : Z) (tok : option string) (w : World)
  (p : Payload) :
  js_truthy tok = true ->
  jwt_verify (str tok) (JWT_REFRESH_SECRET env) now = inr p ->
  up 1 w ->
  refresh env now tok w =
  (match fst (select_refresh_token (str tok) (userId p) (db w)) with
   | [] => mkResponse 401 (ErrorBody "Invalid refresh token")
   | _ :: _ =>
       mkResponse 200
         (AccessBody (generateAccessToken env now (userId p) (email p)))
   end,
   mkWorld (db w) (tl (faults w))).
Proof.
  intros Ht Hp Hup. unfold refresh, try_catch, bind.
  rewrite Ht, Hp. simpl. rewrite (pool_query_up _ _ Hup). simpl.
  destruct (filter _ _); reflexivity.
Qed.

Lemma refresh_unreachable (env : Env) (now : Z) (tok : option string)
  (d : Database) (fs : list bool) (p : Payload) :
  js_truthy tok = true ->
  jwt_verify (str tok) (JWT_REFRESH_SECRET env) now = inr p ->
  refresh env now tok (mkWorld d (true :: fs)) =
  (internal_error, mkWorld d fs).
Proof.
  intros Ht Hp. unfold refresh, try_catch, bind.
  rewrite Ht, Hp. reflexivity.
Qed.

(** Whatever happens, [refresh] writes to no table. *)
Lemma refresh_db (env : Env) (now : Z) (tok : option string) (w : World) :
  db (snd (refresh env now tok w)) = db w.
Proof.
  unfold refresh, try_catch, bind.
  destruct (js_truthy tok); [|reflexivity]. simpl.
  destruct (jwt_verify _ _ _) as [e|p]; simpl; [reflexivity|].
  unfold pool_query. destruct (faults w) as [|[|] fs]; simpl;
    try destruct (_ =? 0); reflexivity.
Qed.

Lemma logout_absent (tok : option string) (w : World) :
  js_truthy tok = false ->
  logout tok w = (mkResponse 400 (ErrorBody "Refresh token required"), w).
Proof. intros H. unfold logout, try_catch. rewrite H. reflexivity. Qed.

Lemma logout_up (tok : option string) (w : World) :
  js_truthy tok = true ->
  up 1 w ->
  logout tok w =
  (mkResponse 200 (MessageBody "Logout successful"),
   mkWorld (snd (delete_refresh_token (str tok) (db w))) (tl (faults w))).
Proof.
  intros Ht Hup. unfold logout, try_catch, bind.
  rewrite Ht. simpl. rewrite (pool_query_up _ _ Hup). reflexivity.
Qed.

Lemma validateToken_token (env : Env) (now : Z) (h tok : string) (w : World) :
  h <> EmptyString ->
  nth_error (split " " h) 1 = Some tok ->
  tok <> EmptyString ->
  validateToken env now (Some h) w =
  (match jwt_verify tok (JWT_SECRET env) now with
   | inr p => Next (mkReqUser (userId p) (email p))
   | inl JsonWebTokenError =>
       Responded (mkResponse 401 (ErrorBody "Invalid token"))
   | inl TokenExpiredError =>
       Responded (mkResponse 401 (ErrorBody "Token expired"))
   end, w).
Proof.
  intros Hh Hs Ht. unfold validateToken, try_catch, bind.
  rewrite (js_truthy_some _ Hh). cbn [negb str]. rewrite Hs.
  rewrite (js_truthy_some _ Ht). cbn [negb str].
  destruct (jwt_verify _ _ _) as [[|]|p]; reflexivity.
Qed.

Lemma validateToken_bearer (env : Env) (now : Z) (tok : string) (w : World) :
  lacks " " tok = true ->
  tok <> EmptyString ->
  validateToken env now (Some ("Bearer " ++ tok)) w =
  (match jwt_verify tok (JWT_SECRET env) now with
   | inr p => Next (mkReqUser (userId p) (email p))
   | inl JsonWebTokenError =>
       Responded (mkResponse 401 (ErrorBody "Invalid token"))
   | inl TokenExpiredError =>
       Responded (mkResponse 401 (ErrorBody "Token expired"))
   end, w).
Proof.
  intros Hsp Hne. apply validateToken_token.
  - discriminate.
  - apply bearer_token, Hsp.
  - exact Hne.
Qed.

(** [login] once the request is well-formed and the lookup has run. *)
Lemma login_found (env : Env) (now : Z) (b : LoginBody) (w : World)
  (user : UserRow) (others : list UserRow) :
  js_truthy (login_email b) = true ->
  js_truthy (as_string (login_password b)) = true ->
  up 1 w ->
  fst (select_users (str (login_email b)) (db w)) = user :: others ->
  bcrypt_compare (str (as_string (login_password b))) (row_password user)
  = true ->
  login env now b w =
  let refreshToken :=
    generateRefreshToken env now (row_id user) (row_email user) in
  match pool_query (insert_refresh_token (row_id user) refreshToken)
                   (mkWorld (db w) (tl (faults w))) with
  | (inr _, w') =>
      (mkResponse 200
         (SessionBody "Login successful" (view_of user)
            (generateAccessToken env now (row_id user) (row_email user))
            refreshToken), w')
  | (inl _, w') => (internal_error, w')
  end.
Proof.
  intros He Hp Hup Hsel Hcmp. unfold login, try_catch, bind.
  destruct (login_password b) as [pw|t]; [|discriminate Hp].
  cbn [as_string str js_truthy_value] in *.
  rewrite He, Hp. cbn [negb orb]. rewrite (pool_query_up _ _ Hup).
  rewrite Hsel. cbn [bcrypt_compare_js ret]. rewrite Hcmp.
  cbn [negb snd select_users].
  destruct (pool_query _ _) as [[e|u] w']; reflexivity.
Qed.

(** A query either throws, leaving the tables alone, or runs. *)
Lemma pool_query_cases {A : Type} (stmt : Database -> A * Database)
  (w : World) :
  (exists fs, faults w = true :: fs /\
              pool_query stmt w = (inl QueryError, mkWorld (db w) fs)) \/
  (up 1 w /\
   pool_query stmt w =
   (inr (fst (stmt (db w))), mkWorld (snd (stmt (db w))) (tl (faults w)))).
Proof.
  destruct w as [d [|[|] fs]].
  - right. split; [reflexivity | apply pool_query_up; reflexivity].
  - left. exists fs. split; reflexivity.
  - right. split; [reflexivity | apply pool_query_up; reflexivity].
Qed.

(** What a session answered by [login] consists of. *)
Lemma login_session (env : Env) (now : Z) (b : LoginBody) (w w' : World)
  (v : UserView) (a r : string) :
  issues (login env now b) w v a r w' ->
  exists user,
    v = view_of user /\
    a = generateAccessToken env now (row_id user) (row_email user) /\
    r = generateRefreshToken env now (row_id user) (row_email user) /\
    db w' = snd (insert_refresh_token (row_id user) r (db w)) /\
    faults w' = tl (tl (faults w)).
Proof.
  intros (st & msg & H). unfold login, try_catch, bind in H.
  destruct (js_truthy (login_email b)); [|inv H].
  destruct (js_truthy_value (login_password b)); [|inv H].
  cbn [negb orb] in H.
  destruct (pool_query_cases (select_users (str (login_email b))) w)
    as [(fs & _ & E) | (_ & E)]; rewrite E in H; [inv H|].
  cbn [fst snd select_users] in H.
  destruct (filter _ (users (db w))) as [|user others]; [inv H|].
  destruct (login_password b) as [pw|t]; [|inv H].
  cbn [bcrypt_compare_js ret] in H.
  destruct (bcrypt_compare _ _); [|inv H]. cbn [negb] in H.
  match type of H with
  | context [pool_query ?stmt ?w1] =>
      destruct (pool_query_cases stmt w1) as [(fs & _ & E1) | (_ & E1)];
      rewrite E1 in H; [inv H|]
  end.
  exists user. inv H. auto.
Qed.

(** What a session answered by [signup] consists of. *)
Lemma signup_session (env : Env) (now : Z) (salt : string) (b : SignupBody)
  (w w' : World) (v : UserView) (a r : string) :
  issues (signup env now salt b) w v a r w' ->
  exists user,
    fst (insert_user (str (signup_email b))
           (bcrypt_hash (str (as_string (signup_password b))) 10 salt)
           (str (signup_firstName b)) (str (signup_lastName b)) (db w))
    = [user] /\
    v = view_of user /\
    a = generateAccessToken env now (row_id user) (row_email user) /\
    r = generateRefreshToken env now (row_id user) (row_email user) /\
    refresh_tokens (db w') =
    (refresh_tokens (db w) ++ [mkTokenRow (row_id user) r])%list.
Proof.
  intros (st & msg & H). unfold signup, try_catch, bind in H.
  destruct (js_truthy (signup_email b)); [|inv H].
  destruct (js_truthy_value (signup_password b)); [|inv H].
  destruct (js_truthy (signup_firstName b)); [|inv H].
  destruct (js_truthy (signup_lastName b)); [|inv H].
  cbn [negb orb] in H.
  destruct (pool_query_cases (select_users (str (signup_email b))) w)
    as [(fs & _ & E) | (_ & E)]; rewrite E in H; [inv H|].
  cbn [fst snd select_users] in H.
  destruct (0 <? _); [inv H|].
  destruct (signup_password b) as [pw|t]; [|inv H].
  cbn [bcrypt_hash_js ret as_string str] in H |- *.
  match type of H with
  | context [pool_query ?stmt ?w1] =>
      destruct (pool_query_cases stmt w1) as [(fs & _ & E1) | (_ & E1)];
      rewrite E1 in H; [inv H|]
  end.
  cbn [fst snd insert_user db faults] in H.
  match type of H with
  | context [pool_query ?stmt ?w1] =>
      destruct (pool_query_cases stmt w1) as [(fs & _ & E2) | (_ & E2)];
      rewrite E2 in H; [inv H|]
  end.
  eexists. inv H. cbn. auto.
Qed.

(** Either way a session is the pair of tokens minted for the user shown,
    and its refresh token is the newest row of [refresh_tokens]. *)
Lemma session_issued_inv (env : Env) (now : Z) (w w' : World)
  (v : UserView) (a r : string) :
  session_issued env now w v a r w' ->
  a = generateAccessToken env now (view_id v) (view_email v) /\
  r = generateRefreshToken env now (view_id v) (view_email v) /\
  refresh_tokens (db w') =
  (refresh_tokens (db w) ++ [mkTokenRow (view_id v) r])%list.
Proof.
  intros [(b & H) | (salt & b & H)].
  - apply login_session in H as (user & -> & -> & -> & Hdb & _).
    rewrite Hdb. repeat split.
  - apply signup_session in H as (user & _ & -> & -> & -> & Hdb).
    rewrite Hdb. repeat split.
Qed.

End Runs.

(* ================================================================== *)
(** ** The symbolic library meets the contract *)

Module SymbolicFacts.
Import Symbolic.

Lemma dec_enc_pos (p : positive) : dec_pos (enc_pos p) = Some p.
Proof. induction p as [q IH|q IH|]; simpl; try rewrite IH; reflexivity. Qed.

Lemma dec_enc_Z (z : Z) : dec_Z (enc_Z z) = Some z.
Proof. destruct z; simpl; try rewrite dec_enc_pos; reflexivity. Qed.

Lemma is_one_bit (b : bool) : is_one (bit b) = b.
Proof. destruct b; reflexivity. Qed.

Lemma dec_enc_string (s : string) : dec_string (enc_string s) = Some s.
Proof.
  induction s as [|c s IH]; [reflexivity|].
  destruct c as [b0 b1 b2 b3 b4 b5 b6 b7].
  cbn [enc_string enc_ascii dec_string]. rewrite IH.
  rewrite !is_one_bit. reflexivity.
Qed.

(** The separators of tokens and of headers are not in the alphabet. *)
Definition separator (c : ascii) : Prop := c = "."%char \/ c = " "%char.

Lemma lacks_enc_pos (c : ascii) (p : positive) :
  separator c -> lacks c (enc_pos p) = true.
Proof.
  intros [-> | ->]; induction p as [q IH|q IH|]; simpl; auto.
Qed.

Lemma lacks_enc_Z (c : ascii) (z : Z) :
  separator c -> lacks c (enc_Z z) = true.
Proof.
  intros Hc. destruct z as [|p|p]; simpl;
    try rewrite (lacks_enc_pos c p Hc); destruct Hc as [-> | ->]; reflexivity.
Qed.

Lemma lacks_bit (c : ascii) (b : bool) (s : string) :
  separator c -> lacks c (String (bit b) s) = lacks c s.
Proof. intros [-> | ->]; destruct b; reflexivity. Qed.

Lemma lacks_enc_string (c : ascii) (s : string) :
  separator c -> lacks c (enc_string s) = true.
Proof.
  intros Hc. induction s as [|d s IH]; [reflexivity|].
  destruct d as [b0 b1 b2 b3 b4 b5 b6 b7]. cbn [enc_string enc_ascii].
  rewrite !(lacks_bit c _ _ Hc). exact IH.
Qed.

Lemma split_dot (a b : string) :
  lacks "." a = true -> split "." (a ++ "." ++ b) = a :: split "." b.
Proof. exact (split_app "." a b). Qed.

Lemma split_sign (uid : Z) (mail secret : string) (ttl now : Z) :
  split "." (sign uid mail secret ttl now) =
  [enc_Z uid; enc_string mail; enc_Z now; enc_Z (now + ttl);
   enc_string secret].
Proof.
  assert (Hdot : separator ".") by (left; reflexivity).
  unfold sign.
  rewrite (split_dot (enc_Z uid)) by (apply lacks_enc_Z, Hdot).
  rewrite (split_dot (enc_string mail)) by (apply lacks_enc_string, Hdot).
  rewrite (split_dot (enc_Z now)) by (apply lacks_enc_Z, Hdot).
  rewrite (split_dot (enc_Z (now + ttl))) by (apply lacks_enc_Z, Hdot).
  rewrite (split_word "." (enc_string secret))
    by (apply lacks_enc_string, Hdot).
  reflexivity.
Qed.

Lemma verify_sign_run (uid : Z) (mail secret secret' : string)
  (ttl now now' : Z) :
  verify (sign uid mail secret ttl now) secret' now' =
  if negb (String.eqb secret secret') then inl JsonWebTokenError
  else if now + ttl <=? now' then inl TokenExpiredError
  else inr (mkPayload uid mail now (now + ttl)).
Proof.
  unfold verify. rewrite split_sign.
  rewrite !dec_enc_Z, !dec_enc_string. reflexivity.
Qed.

Lemma sign_word (uid : Z) (mail secret : string) (ttl now : Z) :
  sign uid mail secret ttl now <> EmptyString /\
  lacks " " (sign uid mail secret ttl now) = true.
Proof.
  assert (Hsp : separator " ") by (right; reflexivity).
  split.
  - unfold sign. destruct uid; discriminate.
  - unfold sign. rewrite !lacks_app.
    rewrite !(lacks_enc_Z " " _ Hsp), !(lacks_enc_string " " _ Hsp).
    reflexivity.
Qed.

#[export] Instance jwt_laws : JwtLaws jwt.
Proof.
  constructor; cbn [jwt_sign jwt_verify jwt].
  - apply sign_word.
  - intros uid mail secret ttl now now' H. rewrite verify_sign_run.
    rewrite String.eqb_refl. cbn [negb].
    destruct (Z.leb_spec (now + ttl) now'); [lia | reflexivity].
  - intros uid mail secret ttl now now' H. rewrite verify_sign_run.
    rewrite String.eqb_refl. cbn [negb].
    destruct (Z.leb_spec (now + ttl) now'); [reflexivity | lia].
  - intros uid mail secret secret' ttl now now' H. rewrite verify_sign_run.
    destruct (String.eqb_spec secret secret'); [contradiction | reflexivity].
Qed.

End SymbolicFacts.

(* ================================================================== *)
(** ** Properties of the token lifecycle *)

Section Lifecycle.

Context {J : JwtLib} {HJ : JwtLaws J} {B : Bcrypt}.

(** The middleware lets a fresh access token through. *)
Lemma guard_accepts_access_token (env : Env) (now now' uid : Z)
  (mail : string) (w : World) :
  now' < now + JWT_EXPIRES_IN env ->
  validateToken env now'
    (Some ("Bearer " ++ generateAccessToken env now uid mail)) w =
  (Next (mkReqUser uid mail), w).
Proof.
  intros Hlt. unfold generateAccessToken.
  destruct (jwt_sign_word uid mail (JWT_SECRET env) (JWT_EXPIRES_IN env) now)
    as [Hne Hsp].
  rewrite (validateToken_bearer env now' _ w Hsp Hne).
  rewrite (jwt_verify_sign _ _ _ _ _ _ Hlt). reflexivity.
Qed.

(** C2. For every user id and email, the access token minted for them,
    presented as "Bearer <token>" before it expires, passes the access
    guard, which calls next with [req.user] set to exactly that id and
    email; in particular so does the access token of any session answered
    by login or signup, for the user the session was issued to. *)
Theorem issue_then_guard (env : Env) (now now' : Z) (w2 : World) :
  now' < now + JWT_EXPIRES_IN env ->
  (forall uid mail,
      validateToken env now'
        (Some ("Bearer " ++ generateAccessToken env now uid mail)) w2 =
      (Next (mkReqUser uid mail), w2)) /\
  (forall w w1 v a r,
      session_issued env now w v a r w1 ->
      validateToken env now' (Some ("Bearer " ++ a)) w2 =
      (Next (mkReqUser (view_id v) (view_email v)), w2)).
Proof.
  intros Hlt. split.
  - intros uid mail. apply guard_accepts_access_token, Hlt.
  - intros w w1 v a r Hs. apply session_issued_inv in Hs as (-> & _ & _).
    apply guard_accepts_access_token, Hlt.
Qed.

(** C7. When the two secrets differ, a token signed for one class fails
    verification under the other with [JsonWebTokenError]: the guard
    answers a refresh token with 401 "Invalid token", and [refresh]
    answers an access token with 401 "Invalid or expired refresh token",
    before any query is made. *)
Theorem key_classes_do_not_mix (env : Env) (now now' uid : Z) (mail : string)
  (w : World) :
  JWT_SECRET env <> JWT_REFRESH_SECRET env ->
  jwt_verify (generateRefreshToken env now uid mail) (JWT_SECRET env) now'
  = inl JsonWebTokenError /\
  jwt_verify (generateAccessToken env now uid mail) (JWT_REFRESH_SECRET env)
             now'
  = inl JsonWebTokenError /\
  validateToken env now'
    (Some ("Bearer " ++ generateRefreshToken env now uid mail)) w
  = (Responded (mkResponse 401 (ErrorBody "Invalid token")), w) /\
  refresh env now' (Some (generateAccessToken env now uid mail)) w
  = (mkResponse 401 (ErrorBody "Invalid or expired refresh token"), w).
Proof.
  intros Hdiff.
  assert (Hr : jwt_verify (generateRefreshToken env now uid mail)
                          (JWT_SECRET env) now' = inl JsonWebTokenError)
    by (apply jwt_verify_other_secret; congruence).
  assert (Ha : jwt_verify (generateAccessToken env now uid mail)
                          (JWT_REFRESH_SECRET env) now'
               = inl JsonWebTokenError)
    by (apply jwt_verify_other_secret; congruence).
  repeat split; try assumption.
  - destruct (jwt_sign_word uid mail (JWT_REFRESH_SECRET env)
                (JWT_REFRESH_EXPIRES_IN env) now) as [Hne Hsp].
    rewrite (validateToken_bearer env now' _ w Hsp Hne).
    unfold generateRefreshToken in Hr. rewrite Hr. reflexivity.
  - apply (refresh_rejected env now' _ w JsonWebTokenError); [|exact Ha].
    apply js_truthy_some. apply jwt_sign_word.
Qed.

(** C5, as the code has it. The guard answers 401 "Access token required"
    when the header is absent or empty; 401 "Invalid token format" when
    the header, cut at blanks, has no non-empty second piece (the first
    piece is never compared with "Bearer"); 401 "Token expired" and 401
    "Invalid token" as verification of that piece throws
    [TokenExpiredError] or [JsonWebTokenError]; and otherwise calls next
    with the decoded user id and email. In every branch the world is
    returned untouched and the outcome is the same in any other world. *)
Theorem guard_outcomes (env : Env) (now : Z) (h : option string) (w : World) :
  (js_truthy h = false ->
   fst (validateToken env now h w) =
   Responded (mkResponse 401 (ErrorBody "Access token required"))) /\
  (js_truthy h = true ->
   js_truthy (nth_error (split " " (str h)) 1) = false ->
   fst (validateToken env now h w) =
   Responded (mkResponse 401 (ErrorBody "Invalid token format"))) /\
  (forall tok,
      js_truthy h = true ->
      nth_error (split " " (str h)) 1 = Some tok -> tok <> EmptyString ->
      (jwt_verify tok (JWT_SECRET env) now = inl TokenExpiredError ->
       fst (validateToken env now h w) =
       Responded (mkResponse 401 (ErrorBody "Token expired"))) /\
      (jwt_verify tok (JWT_SECRET env) now = inl JsonWebTokenError ->
       fst (validateToken env now h w) =
       Responded (mkResponse 401 (ErrorBody "Invalid token"))) /\
      (forall p, jwt_verify tok (JWT_SECRET env) now = inr p ->
                 fst (validateToken env now h w) =
                 Next (mkReqUser (userId p) (email p)))) /\
  snd (validateToken env now h w) = w /\
  (forall w', fst (validateToken env now h w') =
              fst (validateToken env now h w)).
Proof.
  split; [|split; [|split; [|split]]].
  - intros Hh. unfold validateToken, try_catch. rewrite Hh. reflexivity.
  - intros Hh Ht. unfold validateToken, try_catch. rewrite Hh. cbn [negb].
    rewrite Ht. reflexivity.
  - intros tok Hh Hs Hne. apply js_truthy_str in Hh as [Hh Hhne].
    rewrite Hh. rewrite (validateToken_token env now _ tok w Hhne Hs Hne).
    repeat split.
    + intros ->. reflexivity.
    + intros ->. reflexivity.
    + intros p ->. reflexivity.
  - unfold validateToken, try_catch, bind.
    destruct (js_truthy h); [|reflexivity]. cbn [negb].
    destruct (js_truthy (nth_error _ _)); [|reflexivity]. cbn [negb].
    destruct (jwt_verify _ _ _) as [[|]|p]; reflexivity.
  - intros w'. unfold validateToken, try_catch, bind.
    destruct (js_truthy h); [|reflexivity]. cbn [negb].
    destruct (js_truthy (nth_error _ _)); [|reflexivity]. cbn [negb].
    destruct (jwt_verify _ _ _) as [[|]|p]; reflexivity.
Qed.

(** With the database reachable, [refresh] answers 200 exactly when the
    token verifies and a row carries it for the decoded user. *)
Lemma refresh_ok_iff (env : Env) (now : Z) (tok : option string) (w : World) :
  up 1 w ->
  status (fst (refresh env now tok w)) = 200 <->
  js_truthy tok = true /\
  exists p, jwt_verify (str tok) (JWT_REFRESH_SECRET env) now = inr p /\
            has_record (str tok) (userId p) (db w).
Proof.
  intros Hup. destruct (js_truthy tok) eqn:Ht.
  - destruct (jwt_verify (str tok) (JWT_REFRESH_SECRET env) now) as [e|p] eqn:Hv.
    + rewrite (refresh_rejected env now tok w e Ht Hv). cbn. split.
      * discriminate.
      * intros (_ & p & Hp & _). discriminate.
    + rewrite (refresh_verified env now tok w p Ht Hv Hup). cbn [fst].
      destruct (fst (select_refresh_token _ _ _)) as [|row rows] eqn:Hsel.
      * apply select_refresh_token_nil in Hsel. cbn. split; [discriminate|].
        intros (_ & q & Hq & Hrec). inv Hq. contradiction.
      * cbn. split; [|reflexivity]. intros _. split; [reflexivity|].
        exists p. split; [reflexivity|].
        destruct (select_refresh_token_nil (str tok) (userId p) (db w))
          as [_ Hnil].
        unfold has_record.
        assert (Hin : In row (fst (select_refresh_token (str tok) (userId p)
                                                        (db w))))
          by (rewrite Hsel; left; reflexivity).
        cbn [fst select_refresh_token] in Hin.
        apply filter_In in Hin as [Hin Hf].
        apply andb_true_iff in Hf as [Hf1 Hf2].
        apply String.eqb_eq in Hf1. apply Z.eqb_eq in Hf2.
        exists row. auto.
  - rewrite (refresh_absent env now tok w Ht). cbn. split.
    + discriminate.
    + intros [Hf _]. discriminate.
Qed.

(** After [DELETE ... WHERE token = $1] no row carries the token. *)
Lemma delete_refresh_token_gone (tok : string) (uid : Z) (d : Database) :
  ~ has_record tok uid (snd (delete_refresh_token tok d)).
Proof.
  intros (r & Hin & Ht & _). cbn in Hin.
  apply filter_In in Hin as [_ Hf]. subst tok.
  rewrite String.eqb_refl in Hf. discriminate.
Qed.

(** C3. [refresh] answers 401 when [jwt.verify] throws either error, and
    401 again when it passes but no row of [refresh_tokens] has both the
    presented token and the decoded user id; a row with the token under
    another user id does not count. It answers 200 only when verification
    passes and such a row exists, and then it does. *)
Theorem renew_requires_signature_and_record (env : Env) (now : Z)
  (tok : option string) (w : World) :
  up 1 w ->
  (js_truthy tok = false ->
   fst (refresh env now tok w) =
   mkResponse 401 (ErrorBody "Refresh token required")) /\
  (forall e,
      js_truthy tok = true ->
      jwt_verify (str tok) (JWT_REFRESH_SECRET env) now = inl e ->
      fst (refresh env now tok w) =
      mkResponse 401 (ErrorBody "Invalid or expired refresh token")) /\
  (forall p,
      js_truthy tok = true ->
      jwt_verify (str tok) (JWT_REFRESH_SECRET env) now = inr p ->
      ~ has_record (str tok) (userId p) (db w) ->
      fst (refresh env now tok w) =
      mkResponse 401 (ErrorBody "Invalid refresh token")) /\
  (forall p,
      js_truthy tok = true ->
      jwt_verify (str tok) (JWT_REFRESH_SECRET env) now = inr p ->
      (forall r, In r (refresh_tokens (db w)) -> token r = str tok ->
                 user_id r <> userId p) ->
      fst (refresh env now tok w) =
      mkResponse 401 (ErrorBody "Invalid refresh token")) /\
  (forall p,
      js_truthy tok = true ->
      jwt_verify (str tok) (JWT_REFRESH_SECRET env) now = inr p ->
      has_record (str tok) (userId p) (db w) ->
      fst (refresh env now tok w) =
      mkResponse 200
        (AccessBody (generateAccessToken env now (userId p) (email p)))) /\
  (status (fst (refresh env now tok w)) = 200 ->
   js_truthy tok = true /\
   exists p, jwt_verify (str tok) (JWT_REFRESH_SECRET env) now = inr p /\
             has_record (str tok) (userId p) (db w)).
Proof.
  intros Hup.
  assert (Hmiss : forall p,
             js_truthy tok = true ->
             jwt_verify (str tok) (JWT_REFRESH_SECRET env) now = inr p ->
             ~ has_record (str tok) (userId p) (db w) ->
             fst (refresh env now tok w) =
             mkResponse 401 (ErrorBody "Invalid refresh token")).
  { intros p Ht Hv Hno. rewrite (refresh_verified env now tok w p Ht Hv Hup).
    apply select_refresh_token_nil in Hno. rewrite Hno. reflexivity. }
  split; [|split; [|split; [|split; [|split]]]].
  - intros Ht. rewrite (refresh_absent env now tok w Ht). reflexivity.
  - intros e Ht Hv. rewrite (refresh_rejected env now tok w e Ht Hv).
    reflexivity.
  - exact Hmiss.
  - intros p Ht Hv Hother. apply (Hmiss p Ht Hv).
    intros (r & Hin & Hr & Hu). exact (Hother r Hin Hr Hu).
  - intros p Ht Hv Hrec. rewrite (refresh_verified env now tok w p Ht Hv Hup).
    cbn [fst].
    destruct (fst (select_refresh_token _ _ _)) eqn:Hsel; [|reflexivity].
    apply select_refresh_token_nil in Hsel. contradiction.
  - apply refresh_ok_iff, Hup.
Qed.

(** C1. Once [logout] has run its DELETE for a token, no row carries that
    token, and [refresh] with the same token answers 401 whatever the
    clock: 401 "Invalid refresh token" when the signature and expiry still
    verify. In any reachable store, [refresh] answers 200 exactly when the
    token verifies and a row carries it for the decoded user. *)
Theorem revoked_refresh_cannot_renew (env : Env) (now : Z)
  (tok : option string) (w : World) :
  up 2 w ->
  (js_truthy tok = true ->
   fst (logout tok w) = mkResponse 200 (MessageBody "Logout successful") /\
   forall uid, ~ has_record (str tok) uid (db (snd (logout tok w)))) /\
  status (fst (refresh env now tok (snd (logout tok w)))) = 401 /\
  (forall p,
      js_truthy tok = true ->
      jwt_verify (str tok) (JWT_REFRESH_SECRET env) now = inr p ->
      fst (refresh env now tok (snd (logout tok w))) =
      mkResponse 401 (ErrorBody "Invalid refresh token")) /\
  (forall w',
      up 1 w' ->
      status (fst (refresh env now tok w')) = 200 <->
      js_truthy tok = true /\
      exists p, jwt_verify (str tok) (JWT_REFRESH_SECRET env) now = inr p /\
                has_record (str tok) (userId p) (db w')).
Proof.
  intros Hup2.
  assert (Hup1 : up 1 w) by (apply (up_le 1 2); [lia | exact Hup2]).
  destruct (up_S 1 w Hup2) as [_ Hup1'].
  pose proof (fun w' => refresh_ok_iff env now tok w') as Hiff.
  destruct (js_truthy tok) eqn:Ht.
  - rewrite (logout_up tok w Ht Hup1). cbn [fst snd db].
    set (d1 := snd (delete_refresh_token (str tok) (db w))).
    assert (Hgone : forall uid, ~ has_record (str tok) uid d1)
      by (intros uid; apply delete_refresh_token_gone).
    assert (Hrev : forall p,
               jwt_verify (str tok) (JWT_REFRESH_SECRET env) now = inr p ->
               fst (refresh env now tok (mkWorld d1 (tl (faults w)))) =
               mkResponse 401 (ErrorBody "Invalid refresh token")).
    { intros p Hv.
      rewrite (refresh_verified env now tok _ p Ht Hv (Hup1' d1)).
      cbn [fst db].
      destruct (select_refresh_token_nil (str tok) (userId p) d1) as [_ Hnil].
      rewrite (Hnil (Hgone (userId p))). reflexivity. }
    split; [split; [reflexivity | exact Hgone]|].
    split; [|split].
    + destruct (jwt_verify (str tok) (JWT_REFRESH_SECRET env) now)
        as [e|p] eqn:Hv.
      * rewrite (refresh_rejected env now tok _ e Ht Hv). reflexivity.
      * rewrite (Hrev p eq_refl). reflexivity.
    + intros p _ Hv. exact (Hrev p Hv).
    + exact Hiff.
  - rewrite (logout_absent tok w Ht). cbn [snd].
    rewrite (refresh_absent env now tok w Ht). cbn [fst status].
    split; [discriminate|]. split; [reflexivity|]. split.
    + intros p Hf. discriminate.
    + exact Hiff.
Qed.

(** A verified token with a row for its user is renewed. *)
Lemma refresh_accepts (env : Env) (now : Z) (tok : option string) (w : World)
  (p : Payload) :
  js_truthy tok = true ->
  jwt_verify (str tok) (JWT_REFRESH_SECRET env) now = inr p ->
  has_record (str tok) (userId p) (db w) ->
  up 1 w ->
  refresh env now tok w =
  (mkResponse 200
     (AccessBody (generateAccessToken env now (userId p) (email p))),
   mkWorld (db w) (tl (faults w))).
Proof.
  intros Ht Hv Hrec Hup. rewrite (refresh_verified env now tok w p Ht Hv Hup).
  destruct (fst (select_refresh_token _ _ _)) eqn:Hsel; [|reflexivity].
  apply select_refresh_token_nil in Hsel. contradiction.
Qed.

(** The refresh token of an issued session, while it has its row and has
    not expired, is renewed. *)
Lemma refresh_issued (env : Env) (t0 t uid : Z) (mail : string) (w : World) :
  has_record (generateRefreshToken env t0 uid mail) uid (db w) ->
  t < t0 + JWT_REFRESH_EXPIRES_IN env ->
  up 1 w ->
  refresh env t (Some (generateRefreshToken env t0 uid mail)) w =
  (mkResponse 200 (AccessBody (generateAccessToken env t uid mail)),
   mkWorld (db w) (tl (faults w))).
Proof.
  intros Hrec Hlt Hup.
  assert (Ht : js_truthy (Some (generateRefreshToken env t0 uid mail)) = true)
    by (apply js_truthy_some, jwt_sign_word).
  apply (refresh_accepts env t _ w
           (mkPayload uid mail t0 (t0 + JWT_REFRESH_EXPIRES_IN env)) Ht);
    [|exact Hrec|exact Hup].
  apply jwt_verify_sign, Hlt.
Qed.

Lemma session_has_record (env : Env) (now : Z) (w w' : World)
  (v : UserView) (a r : string) :
  session_issued env now w v a r w' ->
  has_record r (view_id v) (db w').
Proof.
  intros Hs. apply session_issued_inv in Hs as (_ & _ & Hdb).
  exists (mkTokenRow (view_id v) r). rewrite Hdb. split; [|split; reflexivity].
  apply in_or_app. right. left. reflexivity.
Qed.

(** What the guard makes of an access token, at any clock. *)
Lemma guard_window (env : Env) (now now' uid : Z) (mail : string)
  (w : World) :
  validateToken env now'
    (Some ("Bearer " ++ generateAccessToken env now uid mail)) w =
  (if now' <? now + JWT_EXPIRES_IN env
   then Next (mkReqUser uid mail)
   else Responded (mkResponse 401 (ErrorBody "Token expired")), w).
Proof.
  unfold generateAccessToken.
  destruct (jwt_sign_word uid mail (JWT_SECRET env) (JWT_EXPIRES_IN env) now)
    as [Hne Hsp].
  rewrite (validateToken_bearer env now' _ w Hsp Hne).
  destruct (Z.ltb_spec now' (now + JWT_EXPIRES_IN env)) as [Hlt | Hge].
  - rewrite (jwt_verify_sign _ _ _ _ _ _ Hlt). reflexivity.
  - rewrite (jwt_verify_expired _ _ _ _ _ _ Hge). reflexivity.
Qed.

(** Access tokens minted for one user at two clocks are the same string
    only if the clocks are the same: the payload carries [iat]. *)
Lemma access_token_clock (env : Env) (t1 t2 uid : Z) (mail : string) :
  generateAccessToken env t1 uid mail = generateAccessToken env t2 uid mail ->
  t1 = t2.
Proof.
  unfold generateAccessToken. intros Heq.
  set (t' := Z.min t1 t2 + JWT_EXPIRES_IN env - 1).
  assert (H1 : t' < t1 + JWT_EXPIRES_IN env) by (unfold t'; lia).
  assert (H2 : t' < t2 + JWT_EXPIRES_IN env) by (unfold t'; lia).
  pose proof (jwt_verify_sign uid mail (JWT_SECRET env) (JWT_EXPIRES_IN env)
                t1 t' H1) as V1.
  pose proof (jwt_verify_sign uid mail (JWT_SECRET env) (JWT_EXPIRES_IN env)
                t2 t' H2) as V2.
  rewrite Heq, V2 in V1. inv V1. reflexivity.
Qed.

(** C4, as the code has it. A renewal of an issued session's refresh token
    before it expires answers 200 with an access token minted at the
    renewal clock: the guard lets it through, for the session's user,
    until [JWT_EXPIRES_IN] after that clock and answers "Token expired"
    from then on; it is the session's own access token again exactly when
    the renewal falls in the clock second of the issuance, and a different
    string otherwise. The renewal writes to no table and leaves the world
    as it was, so the same refresh token is renewed again and again until
    it expires (revocation is C1); [refresh] never writes, whatever it
    answers. *)
Theorem renew_keeps_refresh_token (env : Env) (t0 : Z) (w0 w : World)
  (v : UserView) (a r : string) :
  session_issued env t0 w0 v a r w ->
  faults w = [] ->
  (forall t,
      t < t0 + JWT_REFRESH_EXPIRES_IN env ->
      exists a2,
        refresh env t (Some r) w = (mkResponse 200 (AccessBody a2), w) /\
        (forall t' w',
            validateToken env t' (Some ("Bearer " ++ a2)) w' =
            (if t' <? t + JWT_EXPIRES_IN env
             then Next (mkReqUser (view_id v) (view_email v))
             else Responded (mkResponse 401 (ErrorBody "Token expired")),
             w')) /\
        (a2 = a <-> t = t0)) /\
  (forall clocks,
      Forall (fun t => t < t0 + JWT_REFRESH_EXPIRES_IN env) clocks ->
      renew_many env (Some r) clocks w =
      (map (fun t =>
              mkResponse 200
                (AccessBody
                   (generateAccessToken env t (view_id v) (view_email v))))
           clocks, w)) /\
  (forall t,
      t0 + JWT_REFRESH_EXPIRES_IN env <= t ->
      fst (refresh env t (Some r) w) =
      mkResponse 401 (ErrorBody "Invalid or expired refresh token")) /\
  (forall t tok' w', db (snd (refresh env t tok' w')) = db w').
Proof.
  intros Hs Hf.
  pose proof (session_has_record _ _ _ _ _ _ _ Hs) as Hrec.
  apply session_issued_inv in Hs as (Ha & Hr & _). subst a r.
  assert (Hw : mkWorld (db w) (tl (faults w)) = w)
    by (destruct w as [d fs]; simpl in *; subst fs; reflexivity).
  assert (Hup : up 1 w) by (unfold up; rewrite Hf; reflexivity).
  split; [|split; [|split]].
  - intros t Ht.
    exists (generateAccessToken env t (view_id v) (view_email v)).
    split; [|split].
    + rewrite (refresh_issued env t0 t _ _ w Hrec Ht Hup), Hw. reflexivity.
    + intros t' w'. apply guard_window.
    + split; [apply access_token_clock | intros ->; reflexivity].
  - intros clocks Hall. induction Hall as [|t clocks Ht _ IH];
      [reflexivity|].
    cbn [renew_many map].
    rewrite (refresh_issued env t0 t _ _ w Hrec Ht Hup), Hw.
    rewrite IH. reflexivity.
  - intros t Hle.
    rewrite (refresh_rejected env t _ w TokenExpiredError);
      [reflexivity | apply js_truthy_some, jwt_sign_word |].
    apply jwt_verify_expired, Hle.
  - intros t tok' w'. apply refresh_db.
Qed.

(** C6. When the INSERT into [refresh_tokens] throws, [login] and [signup]
    answer 500 "Internal server error", a body that carries no token, and
    [refresh_tokens] is left as it was (the account row [signup] has just
    inserted stays: there is no transaction); conversely a session that is
    answered always has its refresh token in the table. *)
Theorem unpersisted_tokens_not_returned (env : Env) (now : Z) :
  (forall b w user others fs,
      js_truthy (login_email b) = true ->
      js_truthy (as_string (login_password b)) = true ->
      fst (select_users (str (login_email b)) (db w)) = user :: others ->
      bcrypt_compare (str (as_string (login_password b))) (row_password user)
      = true ->
      faults w = false :: true :: fs ->
      login env now b w = (internal_error, mkWorld (db w) fs)) /\
  (forall salt b w fs,
      js_truthy (signup_email b) = true ->
      js_truthy (as_string (signup_password b)) = true ->
      js_truthy (signup_firstName b) = true ->
      js_truthy (signup_lastName b) = true ->
      fst (select_users (str (signup_email b)) (db w)) = [] ->
      faults w = false :: false :: true :: fs ->
      fst (signup env now salt b w) = internal_error /\
      refresh_tokens (db (snd (signup env now salt b w))) =
      refresh_tokens (db w) /\
      users (db (snd (signup env now salt b w))) =
      (users (db w) ++
       fst (insert_user (str (signup_email b))
              (bcrypt_hash (str (as_string (signup_password b))) 10 salt)
              (str (signup_firstName b)) (str (signup_lastName b))
              (db w)))%list) /\
  body_tokens (body internal_error) = [] /\
  (forall w v a r w',
      session_issued env now w v a r w' ->
      In (mkTokenRow (view_id v) r) (refresh_tokens (db w'))).
Proof.
  split; [|split; [|split]].
  - intros b w user others fs He Hp Hsel Hcmp Hf.
    rewrite (login_found env now b w user others He Hp) ; try assumption.
    + rewrite Hf. reflexivity.
    + unfold up. rewrite Hf. reflexivity.
  - intros salt b w fs He Hp Hfn Hln Hsel Hf.
    unfold signup, try_catch, bind.
    destruct (signup_password b) as [pw|t]; [|discriminate Hp].
    cbn [as_string str js_truthy_value] in *.
    rewrite He, Hp, Hfn, Hln. cbn [negb orb].
    rewrite pool_query_up by (unfold up; rewrite Hf; reflexivity).
    rewrite Hsel, Hf. cbn. repeat split; reflexivity.
  - reflexivity.
  - intros w v a r w' Hs. apply session_issued_inv in Hs as (_ & _ & Hdb).
    rewrite Hdb. apply in_or_app. right. left. reflexivity.
Qed.

(** C8, as the code has it. For every non-empty value, verified or not,
    issued or not, [logout] answers 200 when its query reaches the
    database, and deletes exactly the rows carrying the value; a second
    [logout] answers 200 again and changes nothing more; when no row
    carries the value the tables are left as they were. An absent or empty
    value is answered 400 and no query is made. *)
Theorem logout_nonempty_succeeds (tok : string) (w : World) :
  tok <> EmptyString ->
  up 2 w ->
  logout (Some tok) w =
  (mkResponse 200 (MessageBody "Logout successful"),
   mkWorld (snd (delete_refresh_token tok (db w))) (tl (faults w))) /\
  fst (logout (Some tok) (snd (logout (Some tok) w))) =
  mkResponse 200 (MessageBody "Logout successful") /\
  db (snd (logout (Some tok) (snd (logout (Some tok) w)))) =
  db (snd (logout (Some tok) w)) /\
  ((forall uid, ~ has_record tok uid (db w)) ->
   db (snd (logout (Some tok) w)) = db w) /\
  (forall v w', js_truthy v = false ->
                logout v w' =
                (mkResponse 400 (ErrorBody "Refresh token required"), w')).
Proof.
  intros Hne Hup2.
  assert (Ht : js_truthy (Some tok) = true) by (apply js_truthy_some, Hne).
  assert (Hup1 : up 1 w) by (apply (up_le 1 2); [lia | exact Hup2]).
  destruct (up_S 1 w Hup2) as [_ Hup1'].
  rewrite (logout_up (Some tok) w Ht Hup1). cbn [fst snd str].
  rewrite (logout_up (Some tok) _ Ht (Hup1' _)). cbn [fst snd str db].
  split; [reflexivity|]. split; [reflexivity|]. split; [|split].
  - unfold delete_refresh_token. cbn [snd users refresh_tokens users_id_seq].
    f_equal. apply filter_absorb. auto.
  - intros Hno. unfold delete_refresh_token. cbn [snd].
    rewrite filter_all; [destruct (db w); reflexivity|].
    intros x Hx. apply negb_true_iff.
    destruct (String.eqb_spec (token x) tok) as [Heq|]; [|reflexivity].
    exfalso. apply (Hno (user_id x)). exists x. auto.
  - intros v w' Hv. apply logout_absent, Hv.
Qed.

(** X18. For passwords that are strings, a login for an unknown email and
    a login with a wrong password are answered alike: 401 "Invalid
    credentials", status and body equal. *)
Lemma login_failures_alike_for_strings (env : Env) (now1 now2 : Z)
  (b1 b2 : LoginBody) (w1 w2 : World) (user : UserRow)
  (others : list UserRow) :
  js_truthy (login_email b1) = true ->
  js_truthy_value (login_password b1) = true ->
  js_truthy (login_email b2) = true ->
  js_truthy (as_string (login_password b2)) = true ->
  up 1 w1 -> up 1 w2 ->
  fst (select_users (str (login_email b1)) (db w1)) = [] ->
  fst (select_users (str (login_email b2)) (db w2)) = user :: others ->
  bcrypt_compare (str (as_string (login_password b2))) (row_password user)
  = false ->
  fst (login env now1 b1 w1) = fst (login env now2 b2 w2) /\
  fst (login env now1 b1 w1) =
  mkResponse 401 (ErrorBody "Invalid credentials").
Proof.
  intros He1 Hp1 He2 Hp2 Hup1 Hup2 Hnone Hsome Hbad.
  assert (H1 : fst (login env now1 b1 w1) =
               mkResponse 401 (ErrorBody "Invalid credentials")).
  { unfold login, try_catch, bind. rewrite He1, Hp1. cbn [negb orb].
    rewrite (pool_query_up _ _ Hup1), Hnone. reflexivity. }
  assert (H2 : fst (login env now2 b2 w2) =
               mkResponse 401 (ErrorBody "Invalid credentials")).
  { unfold login, try_catch, bind.
    destruct (login_password b2) as [pw|t]; [|discriminate Hp2].
    cbn [as_string str js_truthy_value] in *.
    rewrite He2, Hp2. cbn [negb orb].
    rewrite (pool_query_up _ _ Hup2), Hsome.
    cbn [bcrypt_compare_js ret]. rewrite Hbad. reflexivity. }
  rewrite H1, H2. split; reflexivity.
Qed.

(** C9, where the code departs from it. When the password sent is not a
    string (a JSON number, say), a login for an unknown email is answered
    401 "Invalid credentials" while a login for an email that has an
    account is answered 500 "Internal server error", because
    [bcrypt.compare] throws: the two answers differ, and tell the caller
    which emails have accounts. *)
Theorem login_reveals_account_to_nonstring_password (env : Env) (now : Z)
  (unknown known : option string) (w : World) (user : UserRow)
  (others : list UserRow) :
  js_truthy unknown = true ->
  js_truthy known = true ->
  up 1 w ->
  fst (select_users (str unknown) (db w)) = [] ->
  fst (select_users (str known) (db w)) = user :: others ->
  fst (login env now (mkLoginBody unknown (JsOther true)) w) =
  mkResponse 401 (ErrorBody "Invalid credentials") /\
  fst (login env now (mkLoginBody known (JsOther true)) w) =
  mkResponse 500 (ErrorBody "Internal server error") /\
  fst (login env now (mkLoginBody unknown (JsOther true)) w) <>
  fst (login env now (mkLoginBody known (JsOther true)) w).
Proof.
  intros Hu Hk Hup Hnone Hsome.
  assert (H1 : fst (login env now (mkLoginBody unknown (JsOther true)) w) =
               mkResponse 401 (ErrorBody "Invalid credentials")).
  { unfold login, try_catch, bind. cbn [login_email login_password
      js_truthy_value]. rewrite Hu. cbn [negb orb].
    rewrite (pool_query_up _ _ Hup), Hnone. reflexivity. }
  assert (H2 : fst (login env now (mkLoginBody known (JsOther true)) w) =
               mkResponse 500 (ErrorBody "Internal server error")).
  { unfold login, try_catch, bind. cbn [login_email login_password
      js_truthy_value]. rewrite Hk. cbn [negb orb].
    rewrite (pool_query_up _ _ Hup), Hsome. reflexivity. }
  rewrite H1, H2. repeat split. discriminate.
Qed.

(** Rows carrying another token survive the DELETE, so what [refresh]
    finds for that other token is unchanged. *)
Lemma select_after_delete (tok tok' : string) (uid : Z) (d : Database) :
  tok' <> tok ->
  fst (select_refresh_token tok' uid (snd (delete_refresh_token tok d))) =
  fst (select_refresh_token tok' uid d).
Proof.
  intros Hne. cbn. apply filter_absorb. intros x Hx.
  apply andb_true_iff in Hx as [Hx _]. apply String.eqb_eq in Hx.
  apply negb_true_iff. apply String.eqb_neq. congruence.
Qed.

Lemma refresh_after_logout (env : Env) (t : Z) (tok tok' : string)
  (w : World) :
  tok' <> tok ->
  up 2 w ->
  fst (refresh env t (Some tok') (snd (logout (Some tok) w))) =
  fst (refresh env t (Some tok') w).
Proof.
  intros Hne Hup2.
  assert (Hup1 : up 1 w) by (apply (up_le 1 2); [lia | exact Hup2]).
  destruct (up_S 1 w Hup2) as [_ Hup1'].
  destruct (js_truthy (Some tok)) eqn:Ht;
    [|rewrite (logout_absent _ w Ht); reflexivity].
  rewrite (logout_up _ w Ht Hup1). cbn [snd str].
  destruct (js_truthy (Some tok')) eqn:Ht';
    [|rewrite !(refresh_absent env t _ _ Ht'); reflexivity].
  destruct (jwt_verify (str (Some tok')) (JWT_REFRESH_SECRET env) t)
    as [e|p] eqn:Hv.
  - rewrite !(refresh_rejected env t _ _ e Ht' Hv). reflexivity.
  - rewrite (refresh_verified env t _ _ p Ht' Hv (Hup1' _)).
    rewrite (refresh_verified env t _ _ p Ht' Hv Hup1).
    cbn [fst snd db str]. rewrite (select_after_delete tok tok' _ _ Hne).
    reflexivity.
Qed.

Lemma has_record_app (tok : string) (uid : Z) (d d' : Database)
  (rows : list TokenRow) :
  refresh_tokens d' = (refresh_tokens d ++ rows)%list ->
  has_record tok uid d -> has_record tok uid d'.
Proof.
  intros Hd (r & Hin & Hr). exists r. split; [|exact Hr].
  rewrite Hd. apply in_or_app. left. exact Hin.
Qed.

(** C10. Issuing a session appends one row to [refresh_tokens] and keeps
    every earlier row, so a token that was renewed before is renewed the
    same way afterwards and two sessions issued one after the other are
    both renewable; [logout] removes the rows carrying the presented token
    and no others, so renewal with any other token is answered as
    before. *)
Theorem refresh_records_accumulate (env : Env) :
  (forall now w v a r w1,
      session_issued env now w v a r w1 ->
      refresh_tokens (db w1) =
      (refresh_tokens (db w) ++ [mkTokenRow (view_id v) r])%list) /\
  (forall now w v a r w1 t tok0,
      session_issued env now w v a r w1 ->
      up 1 w -> up 1 w1 ->
      status (fst (refresh env t tok0 w)) = 200 ->
      fst (refresh env t tok0 w1) = fst (refresh env t tok0 w)) /\
  (forall t1 t2 w v1 a1 r1 w1 v2 a2 r2 w2 t,
      session_issued env t1 w v1 a1 r1 w1 ->
      session_issued env t2 w1 v2 a2 r2 w2 ->
      up 2 w2 ->
      t < t1 + JWT_REFRESH_EXPIRES_IN env ->
      t < t2 + JWT_REFRESH_EXPIRES_IN env ->
      status (fst (refresh env t (Some r1) w2)) = 200 /\
      status (fst (refresh env t (Some r2) w2)) = 200 /\
      (r1 <> r2 ->
       status (fst (refresh env t (Some r2) (snd (logout (Some r1) w2))))
       = 200)) /\
  (forall tok w,
      tok <> EmptyString -> up 1 w ->
      refresh_tokens (db (snd (logout (Some tok) w))) =
      filter (fun r => negb (String.eqb (token r) tok))
             (refresh_tokens (db w))) /\
  (forall tok tok' t w,
      tok' <> tok -> up 2 w ->
      fst (refresh env t (Some tok') (snd (logout (Some tok) w))) =
      fst (refresh env t (Some tok') w)).
Proof.
  split; [|split; [|split; [|split]]].
  - intros now w v a r w1 Hs. apply session_issued_inv in Hs. tauto.
  - intros now w v a r w1 t tok0 Hs Hup Hup1 Hok.
    apply session_issued_inv in Hs as (_ & _ & Hdb).
    apply (refresh_ok_iff env t tok0 w Hup) in Hok as (Ht & p & Hv & Hrec).
    rewrite (refresh_accepts env t tok0 w p Ht Hv Hrec Hup).
    rewrite (refresh_accepts env t tok0 w1 p Ht Hv
               (has_record_app _ _ _ _ _ Hdb Hrec) Hup1).
    reflexivity.
  - intros t1 t2 w v1 a1 r1 w1 v2 a2 r2 w2 t Hs1 Hs2 Hup2 Hlt1 Hlt2.
    assert (Hup1 : up 1 w2) by (apply (up_le 1 2); [lia | exact Hup2]).
    pose proof (session_has_record _ _ _ _ _ _ _ Hs1) as Hrec1.
    pose proof (session_has_record _ _ _ _ _ _ _ Hs2) as Hrec2.
    apply session_issued_inv in Hs1 as (_ & Hr1 & _).
    apply session_issued_inv in Hs2 as (_ & Hr2 & Hdb2).
    apply (has_record_app _ _ _ _ _ Hdb2) in Hrec1.
    assert (H1 : status (fst (refresh env t (Some r1) w2)) = 200).
    { rewrite Hr1 in Hrec1 |- *.
      rewrite (refresh_issued env t1 t _ _ w2 Hrec1 Hlt1 Hup1). reflexivity. }
    assert (H2 : status (fst (refresh env t (Some r2) w2)) = 200).
    { rewrite Hr2 in Hrec2 |- *.
      rewrite (refresh_issued env t2 t _ _ w2 Hrec2 Hlt2 Hup1). reflexivity. }
    split; [exact H1|]. split; [exact H2|].
    intros Hne. rewrite (refresh_after_logout env t r1 r2 w2); auto.
  - intros tok w Hne Hup.
    rewrite (logout_up (Some tok) w (js_truthy_some _ Hne) Hup). reflexivity.
  - intros tok tok' t w Hne Hup. apply refresh_after_logout; assumption.
Qed.

End Lifecycle.

(* ================================================================== *)
(** ** The properties at work on the symbolic library *)

Module Scenario.
Import Symbolic SymbolicFacts.

Lemma alice_session_1000 :
  session_issued env0 1000 w0 (view_of alice) access0 refresh0 w1.
Proof.
  left. exists alice_login. exists 200, "Login successful". reflexivity.
Defined.

Lemma alice_session_2000 :
  session_issued env0 2000 w1 (view_of alice)
                 (generateAccessToken env0 2000 42 "a@x.com") refresh1 w2.
Proof.
  left. exists alice_login. exists 200, "Login successful". reflexivity.
Defined.

Lemma issue_then_guard_witness :
  validateToken env0 1500 (Some ("Bearer " ++ access0)) w0 =
  (Next (mkReqUser 42 "a@x.com"), w0).
Proof.
  assert (Hlt : 1500 < 1000 + JWT_EXPIRES_IN env0) by reflexivity.
  apply (proj2 (issue_then_guard env0 1000 1500 w0 Hlt)
           w0 w1 (view_of alice) access0 refresh0).
  exact alice_session_1000.
Defined.

Lemma key_classes_do_not_mix_witness :
  validateToken env0 1500 (Some ("Bearer " ++ refresh0)) w0 =
  (Responded (mkResponse 401 (ErrorBody "Invalid token")), w0) /\
  refresh env0 1500 (Some access0) w0 =
  (mkResponse 401 (ErrorBody "Invalid or expired refresh token"), w0).
Proof.
  apply (key_classes_do_not_mix env0 1000 1500 42 "a@x.com" w0).
  cbv. discriminate.
Defined.

Lemma guard_outcomes_witness :
  fst (validateToken env0 1500 (Some ("Bearer " ++ access0)) w0) =
  Next (mkReqUser 42 "a@x.com") /\
  fst (validateToken env0 1900 (Some ("Bearer " ++ access0)) w0) =
  Responded (mkResponse 401 (ErrorBody "Token expired")) /\
  fst (validateToken env0 1500 (Some "Bearer") w0) =
  Responded (mkResponse 401 (ErrorBody "Invalid token format")).
Proof.
  assert (Hne : access0 <> EmptyString) by discriminate.
  destruct (proj1 (proj2 (proj2
              (guard_outcomes env0 1500 (Some ("Bearer " ++ access0)) w0)))
              access0 eq_refl eq_refl Hne) as (_ & _ & Hok).
  destruct (proj1 (proj2 (proj2
              (guard_outcomes env0 1900 (Some ("Bearer " ++ access0)) w0)))
              access0 eq_refl eq_refl Hne) as (Hexp & _).
  split; [|split].
  - exact (Hok (mkPayload 42 "a@x.com" 1000 1900) eq_refl).
  - exact (Hexp eq_refl).
  - apply (proj1 (proj2 (guard_outcomes env0 1500 (Some "Bearer") w0)));
      reflexivity.
Defined.

(** C5 as worded fails: a header that does not have the "Bearer <token>"
    shape is not answered "Invalid token format"; with a valid access token
    as its second word it is let through. *)
Lemma guard_accepts_other_scheme :
  String.prefix "Bearer" ("Basic " ++ access0) = false /\
  fst (validateToken env0 1500 (Some ("Basic " ++ access0)) w0) =
  Next (mkReqUser 42 "a@x.com") /\
  fst (validateToken env0 1500 (Some ("Basic " ++ access0)) w0) <>
  Responded (mkResponse 401 (ErrorBody "Invalid token format")).
Proof.
  split; [reflexivity|]. split; [reflexivity|]. cbv. discriminate.
Qed.

Lemma refresh0_verifies :
  jwt_verify refresh0 (JWT_REFRESH_SECRET env0) 1500 =
  inr (mkPayload 42 "a@x.com" 1000 605800).
Proof. reflexivity. Defined.

Lemma renew_requires_signature_and_record_witness :
  fst (refresh env0 1500 (Some refresh0) w_misfiled) =
  mkResponse 401 (ErrorBody "Invalid refresh token") /\
  fst (refresh env0 1500 (Some refresh0) w1) =
  mkResponse 200 (AccessBody (generateAccessToken env0 1500 42 "a@x.com")).
Proof.
  split.
  - apply (proj1 (proj2 (proj2 (proj2
             (renew_requires_signature_and_record
                env0 1500 (Some refresh0) w_misfiled eq_refl))))
             (mkPayload 42 "a@x.com" 1000 605800) eq_refl refresh0_verifies).
    intros r [<- | []] _. cbv. discriminate.
  - apply (proj1 (proj2 (proj2 (proj2 (proj2
             (renew_requires_signature_and_record
                env0 1500 (Some refresh0) w1 eq_refl)))))
             (mkPayload 42 "a@x.com" 1000 605800) eq_refl refresh0_verifies).
    exists (mkTokenRow 42 refresh0). repeat split. left. reflexivity.
Defined.

Lemma revoked_refresh_cannot_renew_witness :
  status (fst (refresh env0 1500 (Some refresh0) w1)) = 200 /\
  fst (refresh env0 1500 (Some refresh0) (snd (logout (Some refresh0) w1))) =
  mkResponse 401 (ErrorBody "Invalid refresh token").
Proof.
  split; [reflexivity|].
  apply (proj1 (proj2 (proj2
           (revoked_refresh_cannot_renew env0 1500 (Some refresh0) w1
                                         eq_refl)))
           (mkPayload 42 "a@x.com" 1000 605800) eq_refl refresh0_verifies).
Defined.

Lemma renew_keeps_refresh_token_witness :
  exists a2,
    refresh env0 1500 (Some refresh0) w1 = (mkResponse 200 (AccessBody a2), w1)
    /\ validateToken env0 2399 (Some ("Bearer " ++ a2)) w0 =
       (Next (mkReqUser 42 "a@x.com"), w0)
    /\ a2 <> access0.
Proof.
  destruct (proj1 (renew_keeps_refresh_token env0 1000 w0 w1 (view_of alice)
                     access0 refresh0 alice_session_1000 eq_refl)
              1500 eq_refl) as (a2 & Hrun & Hguard & Hsame).
  exists a2. split; [exact Hrun|]. split.
  - exact (Hguard 2399 w0).
  - intros Heq. apply Hsame in Heq. discriminate Heq.
Defined.

(** C4 as worded fails: renewed within the clock second of the login, the
    refresh token brings back the very access token the login returned,
    not a new one. *)
Lemma renewal_in_login_second_repeats_token :
  fst (login env0 1000 alice_login w0) =
  mkResponse 200
    (SessionBody "Login successful" (view_of alice) access0 refresh0) /\
  fst (refresh env0 1000 (Some refresh0) w1) =
  mkResponse 200 (AccessBody access0).
Proof. split; reflexivity. Qed.

Lemma unpersisted_tokens_not_returned_witness :
  login env0 1000 alice_login (mkWorld db0 [false; true]) =
  (internal_error, mkWorld db0 []).
Proof.
  apply (proj1 (unpersisted_tokens_not_returned env0 1000)
           alice_login (mkWorld db0 [false; true]) alice [] []);
    reflexivity.
Defined.

Lemma logout_nonempty_succeeds_witness :
  fst (logout (Some "not-a-token") w1) =
  mkResponse 200 (MessageBody "Logout successful") /\
  db (snd (logout (Some "not-a-token") w1)) = db w1.
Proof.
  assert (Hne : "not-a-token" <> EmptyString) by discriminate.
  destruct (logout_nonempty_succeeds "not-a-token" w1 Hne eq_refl)
    as (H1 & _ & _ & H4 & _).
  split.
  - rewrite H1. reflexivity.
  - apply H4. intros uid (r & [<- | []] & Ht & _). cbv in Ht. discriminate.
Defined.

(** C8 as worded fails: the empty value is answered 400, not 200. *)
Lemma logout_rejects_empty_value :
  logout (Some EmptyString) w0 =
  (mkResponse 400 (ErrorBody "Refresh token required"), w0) /\
  ~ (forall (tok : string) (w : World),
        up 1 w -> status (fst (logout (Some tok) w)) = 200).
Proof.
  split; [reflexivity|].
  intros H. specialize (H EmptyString w0 eq_refl). cbv in H. discriminate.
Qed.

Lemma login_failures_alike_for_strings_witness :
  fst (login env0 1000 (mkLoginBody (Some "nobody@x.com") (JsString "pw")) w0)
  = fst (login env0 1000 (mkLoginBody (Some "a@x.com") (JsString "wrong"))
               w0).
Proof.
  apply (login_failures_alike_for_strings env0 1000 1000
           (mkLoginBody (Some "nobody@x.com") (JsString "pw"))
           (mkLoginBody (Some "a@x.com") (JsString "wrong"))
           w0 w0 alice []); reflexivity.
Defined.

Lemma login_reveals_account_to_nonstring_password_witness :
  fst (login env0 1000 (mkLoginBody (Some "nobody@x.com") (JsOther true)) w0)
  = mkResponse 401 (ErrorBody "Invalid credentials") /\
  fst (login env0 1000 (mkLoginBody (Some "a@x.com") (JsOther true)) w0)
  = mkResponse 500 (ErrorBody "Internal server error").
Proof.
  destruct (login_reveals_account_to_nonstring_password env0 1000
              (Some "nobody@x.com") (Some "a@x.com") w0 alice []
              eq_refl eq_refl eq_refl eq_refl eq_refl) as (H1 & H2 & _).
  split; [exact H1 | exact H2].
Defined.

Lemma refresh_records_accumulate_witness :
  status (fst (refresh env0 2500 (Some refresh0) w2)) = 200 /\
  status (fst (refresh env0 2500 (Some refresh1) w2)) = 200 /\
  status (fst (refresh env0 2500 (Some refresh1)
                       (snd (logout (Some refresh0) w2)))) = 200.
Proof.
  destruct (proj1 (proj2 (proj2 (refresh_records_accumulate env0)))
              1000 2000 w0 (view_of alice) access0 refresh0 w1
              (view_of alice) (generateAccessToken env0 2000 42 "a@x.com")
              refresh1 w2 2500
              alice_session_1000 alice_session_2000
              eq_refl eq_refl eq_refl) as (H1 & H2 & H3).
  split; [exact H1|]. split; [exact H2|].
  apply H3. cbv. discriminate.
Defined.

End Scenario.

(* ================================================================== *)
(** ** Whole requests: validation, faults, and what is written *)

Lemma consumed_none (d d' : Database) (fs : list bool) :
  consumed (mkWorld d fs) (mkWorld d' fs) = [].
Proof. unfold consumed. cbn. rewrite Nat.sub_diag. reflexivity. Qed.

Lemma consumed_app (d d' : Database) (pre fs : list bool) :
  consumed (mkWorld d (pre ++ fs)) (mkWorld d' fs) = pre.
Proof.
  unfold consumed. cbn [faults]. rewrite length_app, Nat.add_sub.
  rewrite firstn_app, Nat.sub_diag, firstn_all. cbn. apply app_nil_r.
Qed.

Lemma consumed_one (d d' : Database) (a : bool) (fs : list bool) :
  consumed (mkWorld d (a :: fs)) (mkWorld d' fs) = [a].
Proof. exact (consumed_app d d' [a] fs). Qed.

Lemma consumed_two (d d' : Database) (a b : bool) (fs : list bool) :
  consumed (mkWorld d (a :: b :: fs)) (mkWorld d' fs) = [a; b].
Proof. exact (consumed_app d d' [a; b] fs). Qed.

Lemma consumed_three (d d' : Database) (a b c : bool) (fs : list bool) :
  consumed (mkWorld d (a :: b :: c :: fs)) (mkWorld d' fs) = [a; b; c].
Proof. exact (consumed_app d d' [a; b; c] fs). Qed.

(** One step along the paths of a handler: decide the next test it makes. *)
Ltac path_test :=
  match goal with
  | |- context [js_truthy ?v] => destruct (js_truthy v) eqn:?
  | |- context [js_truthy_value ?v] => destruct v as [[|? ?]|[|]] eqn:?
  | |- context [bcrypt_compare ?a ?b] => destruct (bcrypt_compare a b) eqn:?
  | |- context [jwt_verify ?a ?b ?c] =>
      destruct (jwt_verify a b c) as [[|]|?] eqn:?
  | |- context [filter ?f (users ?d)] => destruct (filter f (users d)) eqn:?
  end; cbn -[consumed].

Ltac path_select :=
  match goal with
  | |- context [filter ?f (refresh_tokens ?d)] =>
      destruct (filter f (refresh_tokens d)) eqn:?
  end; cbn -[consumed].

Ltac open_handlers :=
  unfold signup, login, refresh, logout, validateToken;
  unfold try_catch, bind, pool_query, lift, bcrypt_hash_js,
    bcrypt_compare_js, ret, throw;
  cbn -[consumed].

(** All the paths of the handlers in the goal, in a world whose first
    three faults are spelled out. *)
Ltac paths := open_handlers; repeat path_test.

Ltac fault_shapes fs := destruct fs as [|[|] [|[|] [|[|] ?]]].

Ltac consumed_norm :=
  rewrite ?consumed_three, ?consumed_two, ?consumed_one, ?consumed_none.

Lemma NoDup_snoc {A : Type} (l : list A) (a : A) :
  NoDup l -> ~ In a l -> NoDup (l ++ [a]).
Proof.
  induction l as [|b l IH]; cbn; intros Hl Ha.
  - constructor; [intros [] | constructor].
  - inv Hl. constructor.
    + rewrite in_app_iff. cbn. intuition congruence.
    + apply IH; [assumption | tauto].
Qed.

(** The lookup by email finds nothing exactly when no account has it. *)
Lemma select_users_nil (mail : string) (d : Database) :
  fst (select_users mail d) = [] <->
  forall u, In u (users d) -> row_email u <> mail.
Proof.
  cbn. rewrite filter_nil_iff. split; intros H u Hu.
  - apply String.eqb_neq, H, Hu.
  - apply String.eqb_neq, H, Hu.
Qed.

Lemma emails_unique_insert (d : Database) (i : Z) (mail h f l : string) :
  emails_unique d ->
  filter (fun u => String.eqb (row_email u) mail) (users d) = [] ->
  NoDup (map row_email (users d ++ [mkUserRow i mail h f l])).
Proof.
  intros Hu Hsel. rewrite map_app. apply NoDup_snoc; [exact Hu|].
  intros Hin. apply in_map_iff in Hin as (u & Hmail & Hin).
  exact (proj1 (select_users_nil mail d) Hsel u Hin Hmail).
Qed.

Section Requests.

Context {J : JwtLib} {B : Bcrypt}.

(** X1. [refresh] and [logout] answer 500 "Internal server error" exactly
    when the query they made threw. [signup] and [login] do so exactly
    when a query they made threw or bcrypt threw on a password that is not
    a string: in [signup] when the request is complete and the lookup
    finds no account, in [login] when both fields are given and the lookup
    finds one. *)
Theorem internal_error_iff_query_failed (env : Env) (now : Z) (salt : string)
  (sb : SignupBody) (lb : LoginBody) (tok : option string) (w : World) :
  (fst (signup env now salt sb w) = internal_error <->
   In true (consumed w (snd (signup env now salt sb w))) \/
   (complete sb /\ as_string (signup_password sb) = None /\
    fst (select_users (str (signup_email sb)) (db w)) = [])) /\
  (fst (login env now lb w) = internal_error <->
   In true (consumed w (snd (login env now lb w))) \/
   (js_truthy (login_email lb) = true /\
    js_truthy_value (login_password lb) = true /\
    as_string (login_password lb) = None /\
    fst (select_users (str (login_email lb)) (db w)) <> [])) /\
  (fst (refresh env now tok w) = internal_error <->
   In true (consumed w (snd (refresh env now tok w)))) /\
  (fst (logout tok w) = internal_error <->
   In true (consumed w (snd (logout tok w)))).
Proof.
  destruct w as [d fs]. unfold complete. split; [|split; [|split]].
  all: fault_shapes fs; paths; repeat path_select.
  all: consumed_norm; unfold internal_error; cbn [In].
  all: try (split; [discriminate | tauto]).
  all: intuition (try discriminate; try congruence).
Qed.

(** X2. [signup] answers 400 exactly when one of the four fields is absent
    or empty (for the password: any value [!] makes true), and then it
    has made no query: the world is as it was. *)
Theorem signup_validation (env : Env) (now : Z) (salt : string)
  (b : SignupBody) (w : World) :
  (status (fst (signup env now salt b w)) = 400 <->
   js_truthy (signup_email b) && js_truthy_value (signup_password b)
   && js_truthy (signup_firstName b) && js_truthy (signup_lastName b)
   = false) /\
  (status (fst (signup env now salt b w)) = 400 ->
   signup env now salt b w =
   (mkResponse 400 (ErrorBody "All fields are required"), w)).
Proof.
  destruct w as [d fs]. split.
  all: fault_shapes fs; paths.
  all: try (split; [discriminate | discriminate]).
  all: try (split; reflexivity).
  all: try reflexivity.
  all: discriminate.
Qed.

(** X3. [login] answers 400 exactly when the email or the password is
    absent or empty (for the password: any value [!] makes true), and
    then it has made no query. *)
Theorem login_validation (env : Env) (now : Z) (b : LoginBody) (w : World) :
  (status (fst (login env now b w)) = 400 <->
   js_truthy (login_email b) && js_truthy_value (login_password b) = false)
  /\
  (status (fst (login env now b w)) = 400 ->
   login env now b w =
   (mkResponse 400 (ErrorBody "Email and password are required"), w)).
Proof.
  destruct w as [d fs]. split.
  all: fault_shapes fs; paths.
  all: try (split; [discriminate | discriminate]).
  all: try (split; reflexivity).
  all: try reflexivity.
  all: discriminate.
Qed.

(** X4. The status codes of each handler, and that a body carries tokens
    only with the handler's success status; [logout] never returns a
    token. *)
Theorem handler_statuses (env : Env) (now : Z) (salt : string)
  (sb : SignupBody) (lb : LoginBody) (tok : option string) (w : World) :
  (In (status (fst (signup env now salt sb w))) [201; 400; 409; 500] /\
   (body_tokens (body (fst (signup env now salt sb w))) <> [] ->
    status (fst (signup env now salt sb w)) = 201)) /\
  (In (status (fst (login env now lb w))) [200; 400; 401; 500] /\
   (body_tokens (body (fst (login env now lb w))) <> [] ->
    status (fst (login env now lb w)) = 200)) /\
  (In (status (fst (refresh env now tok w))) [200; 401; 500] /\
   (body_tokens (body (fst (refresh env now tok w))) <> [] ->
    status (fst (refresh env now tok w)) = 200)) /\
  (In (status (fst (logout tok w))) [200; 400; 500] /\
   body_tokens (body (fst (logout tok w))) = []).
Proof.
  destruct w as [d fs]. split; [|split; [|split]].
  all: fault_shapes fs; paths; repeat path_select.
  all: cbn; split; auto 6; congruence.
Qed.

(** X5. [signup] keeps emails unique: if no two accounts share an email
    before, none do after, whatever the request and whichever queries
    fail. *)
Theorem signup_keeps_emails_unique (env : Env) (now : Z) (salt : string)
  (b : SignupBody) (w : World) :
  emails_unique (db w) ->
  emails_unique (db (snd (signup env now salt b w))).
Proof.
  destruct w as [d fs]. cbn [db]. intros Hu.
  fault_shapes fs; paths.
  all: try exact Hu.
  all: unfold emails_unique; cbn [users]; apply emails_unique_insert;
    assumption.
Qed.

(** X6. Only [signup] writes to [users]: [login], [refresh] and [logout]
    leave the accounts and the id sequence as they were, and [signup]
    only ever appends. *)
Theorem users_written_by_signup_only (env : Env) (now : Z) (salt : string)
  (sb : SignupBody) (lb : LoginBody) (tok : option string) (w : World) :
  (users (db (snd (login env now lb w))) = users (db w) /\
   users_id_seq (db (snd (login env now lb w))) = users_id_seq (db w)) /\
  (users (db (snd (refresh env now tok w))) = users (db w) /\
   users_id_seq (db (snd (refresh env now tok w))) = users_id_seq (db w)) /\
  (users (db (snd (logout tok w))) = users (db w) /\
   users_id_seq (db (snd (logout tok w))) = users_id_seq (db w)) /\
  (exists added,
      users (db (snd (signup env now salt sb w))) =
      (users (db w) ++ added)%list /\ (length added <= 1)%nat).
Proof.
  destruct w as [d fs]. split; [|split; [|split]].
  1-3: fault_shapes fs; paths; repeat path_select; split; reflexivity.
  fault_shapes fs; paths.
  all: first [ exists []; split; [symmetry; apply app_nil_r | cbn; lia]
             | eexists [_]; split; [reflexivity | cbn; lia] ].
Qed.

(** X7. Rows of [refresh_tokens] are removed by [logout] alone: after
    [signup], [login] or [refresh] every earlier row is still there, and
    [logout] adds none. *)
Theorem refresh_rows_removed_by_logout_only (env : Env) (now : Z)
  (salt : string) (sb : SignupBody) (lb : LoginBody) (tok : option string)
  (w : World) :
  incl (refresh_tokens (db w))
       (refresh_tokens (db (snd (signup env now salt sb w)))) /\
  incl (refresh_tokens (db w))
       (refresh_tokens (db (snd (login env now lb w)))) /\
  incl (refresh_tokens (db w))
       (refresh_tokens (db (snd (refresh env now tok w)))) /\
  incl (refresh_tokens (db (snd (logout tok w))))
       (refresh_tokens (db w)).
Proof.
  destruct w as [d fs]. split; [|split; [|split]].
  1-3: fault_shapes fs; paths; repeat path_select; cbn;
    first [apply incl_refl | apply incl_appl, incl_refl].
  fault_shapes fs; paths;
    first [apply incl_refl | apply incl_filter].
Qed.

End Requests.

(* ================================================================== *)
(** ** Accounts and sessions across requests *)

Section Accounts.

Context {J : JwtLib} {HJ : JwtLaws J} {B : Bcrypt} {HB : BcryptLaws B}.

(** X8. A complete [signup] for an email some account already has is
    answered 409 "User already exists" after the one lookup, and writes
    nothing. *)
Theorem signup_conflict (env : Env) (now : Z) (salt : string)
  (b : SignupBody) (w : World) (u : UserRow) :
  complete b ->
  up 1 w ->
  In u (users (db w)) ->
  row_email u = str (signup_email b) ->
  signup env now salt b w =
  (mkResponse 409 (ErrorBody "User already exists"),
   mkWorld (db w) (tl (faults w))).
Proof.
  intros (He & Hp & Hf & Hl) Hup Hin Hmail.
  unfold signup, try_catch, bind. rewrite He, Hp, Hf, Hl. cbn [negb orb].
  rewrite (pool_query_up _ _ Hup). cbn [fst snd select_users].
  destruct (filter _ (users (db w))) as [|x xs] eqn:Hsel.
  - exfalso.
    exact (proj1 (select_users_nil (str (signup_email b)) (db w))
             Hsel u Hin Hmail).
  - reflexivity.
Qed.

(** X19. A complete [signup] whose password is not a string, for an email
    no account has, is answered 500 "Internal server error" once the
    lookup has run, because [bcrypt.hash] throws; nothing is written. *)
Theorem signup_nonstring_password_fails (env : Env) (now : Z) (salt : string)
  (b : SignupBody) (w : World) :
  complete b ->
  as_string (signup_password b) = None ->
  up 1 w ->
  (forall u, In u (users (db w)) -> row_email u <> str (signup_email b)) ->
  signup env now salt b w =
  (mkResponse 500 (ErrorBody "Internal server error"),
   mkWorld (db w) (tl (faults w))).
Proof.
  intros (He & Hp & Hf & Hl) Hs Hup Hfresh.
  apply select_users_nil in Hfresh. cbn in Hfresh.
  unfold signup, try_catch, bind. rewrite He, Hp, Hf, Hl. cbn [negb orb].
  rewrite (pool_query_up _ _ Hup). cbn [fst snd select_users].
  rewrite Hfresh. cbn [length Z.of_nat Z.ltb Z.compare].
  destruct (signup_password b) as [pw|t]; [discriminate Hs|]. reflexivity.
Qed.

(** X9. A complete [signup] with a string for password, for an email no
    account has, with the database reachable, is answered 201 with the new user's id, email and
    names and a pair of tokens minted for that id and email; it appends
    one account, whose password is the bcrypt hash, and one refresh row. *)
Theorem signup_creates_account (env : Env) (now : Z) (salt : string)
  (b : SignupBody) (w : World) :
  complete b ->
  js_truthy (as_string (signup_password b)) = true ->
  up 3 w ->
  (forall u, In u (users (db w)) -> row_email u <> str (signup_email b)) ->
  let u := new_account salt b (db w) in
  let r := generateRefreshToken env now (row_id u) (row_email u) in
  signup env now salt b w =
  (mkResponse 201
     (SessionBody "User created successfully" (view_of u)
        (generateAccessToken env now (row_id u) (row_email u)) r),
   mkWorld (mkDatabase (users (db w) ++ [u])
                       (refresh_tokens (db w) ++ [mkTokenRow (row_id u) r])
                       (users_id_seq (db w) + 1))
           (tl (tl (tl (faults w))))).
Proof.
  intros (He & Hp & Hf & Hl) Hs Hup Hfresh.
  apply select_users_nil in Hfresh. cbn in Hfresh.
  destruct w as [d fs]. unfold up in Hup. cbn [db faults] in *.
  unfold new_account.
  destruct b as [e [pw|t] f l]; [|discriminate Hs].
  cbn [signup_email signup_password signup_firstName signup_lastName
       as_string str js_truthy_value] in *.
  fault_shapes fs; cbn in Hup; try discriminate Hup.
  all: unfold signup;
    cbn [signup_email signup_password signup_firstName signup_lastName
         js_truthy_value];
    rewrite He, Hp, Hf, Hl; open_handlers; rewrite Hfresh; reflexivity.
Qed.

(** What an answered [signup] tells about the request and the world. *)
Lemma signup_created (env : Env) (now : Z) (salt : string) (b : SignupBody)
  (w w1 : World) (v : UserView) (a r : string) :
  issues (signup env now salt b) w v a r w1 ->
  complete b /\
  js_truthy (as_string (signup_password b)) = true /\
  v = view_of (new_account salt b (db w)) /\
  users (db w1) = (users (db w) ++ [new_account salt b (db w)])%list /\
  fst (select_users (str (signup_email b)) (db w)) = [].
Proof.
  unfold issues, complete, new_account. destruct w as [d fs].
  fault_shapes fs; paths.
  all: intros (st & msg & H); inv H.
  all: cbn; auto 10.
Qed.

(** X10. An account just created can log in: after an answered [signup],
    a [login] with the same email and password, the database reachable,
    is answered 200 with a session for the same user. *)
Theorem signup_then_login (env : Env) (now now' : Z) (salt : string)
  (b : SignupBody) (w w1 : World) (v : UserView) (a r : string) :
  issues (signup env now salt b) w v a r w1 ->
  up 2 w1 ->
  fst (login env now' (mkLoginBody (signup_email b) (signup_password b)) w1) =
  mkResponse 200
    (SessionBody "Login successful" v
       (generateAccessToken env now' (view_id v) (view_email v))
       (generateRefreshToken env now' (view_id v) (view_email v))).
Proof.
  intros Hs Hup2.
  apply signup_created in Hs as ((He & _ & _ & _) & Hp & -> & Husers & Hsel).
  assert (Hup1 : up 1 w1) by (apply (up_le 1 2); [lia | exact Hup2]).
  destruct (up_S 1 w1 Hup2) as [_ Hup1'].
  set (u := new_account salt b (db w)) in *.
  assert (Hfind : fst (select_users (str (signup_email b)) (db w1)) = [u]).
  { cbn in Hsel |- *. rewrite Husers, filter_app, Hsel. cbn.
    rewrite String.eqb_refl. reflexivity. }
  rewrite (login_found env now'
             (mkLoginBody (signup_email b) (signup_password b)) w1 u []
             He Hp Hup1 Hfind (bcrypt_compare_hash _ _ _)).
  cbn zeta. rewrite (pool_query_up _ _ (Hup1' _)). reflexivity.
Qed.

(** X11. An email can be registered once: after an answered [signup],
    another complete [signup] with the same email is answered 409. *)
Theorem signup_twice_conflict (env : Env) (now now' : Z) (salt salt' : string)
  (b b' : SignupBody) (w w1 : World) (v : UserView) (a r : string) :
  issues (signup env now salt b) w v a r w1 ->
  complete b' ->
  signup_email b' = signup_email b ->
  up 1 w1 ->
  fst (signup env now' salt' b' w1) =
  mkResponse 409 (ErrorBody "User already exists").
Proof.
  intros Hs Hc Hmail Hup.
  apply signup_created in Hs as (_ & _ & _ & Husers & _).
  rewrite (signup_conflict env now' salt' b' w1
             (new_account salt b (db w)) Hc Hup).
  - reflexivity.
  - rewrite Husers. apply in_or_app. right. left. reflexivity.
  - rewrite Hmail. reflexivity.
Qed.

(** X12. With both fields given and the database reachable, [login] is
    answered 200 exactly when the password is a string and the first
    account with that email has a hash that [bcrypt.compare] accepts for
    it, and the session is then for that account. *)
Theorem login_ok_iff (env : Env) (now : Z) (b : LoginBody) (w : World) :
  js_truthy (login_email b) = true ->
  js_truthy_value (login_password b) = true ->
  up 2 w ->
  (status (fst (login env now b w)) = 200 <->
   exists user others pw,
     fst (select_users (str (login_email b)) (db w)) = user :: others /\
     login_password b = JsString pw /\
     bcrypt_compare pw (row_password user) = true) /\
  (forall user others pw,
      fst (select_users (str (login_email b)) (db w)) = user :: others ->
      login_password b = JsString pw ->
      bcrypt_compare pw (row_password user) = true ->
      fst (login env now b w) =
      mkResponse 200
        (SessionBody "Login successful" (view_of user)
           (generateAccessToken env now (row_id user) (row_email user))
           (generateRefreshToken env now (row_id user) (row_email user)))).
Proof.
  intros He Hp Hup2.
  assert (Hup1 : up 1 w) by (apply (up_le 1 2); [lia | exact Hup2]).
  destruct (up_S 1 w Hup2) as [_ Hup1'].
  assert (Hrun : forall user others pw,
             fst (select_users (str (login_email b)) (db w)) = user :: others ->
             login_password b = JsString pw ->
             bcrypt_compare pw (row_password user) = true ->
             fst (login env now b w) =
             mkResponse 200
               (SessionBody "Login successful" (view_of user)
                  (generateAccessToken env now (row_id user) (row_email user))
                  (generateRefreshToken env now (row_id user)
                                        (row_email user)))).
  { intros user others pw Hsel Hpw Hcmp.
    assert (Hs : js_truthy (as_string (login_password b)) = true)
      by (rewrite Hpw in Hp |- *; exact Hp).
    assert (Hc : bcrypt_compare (str (as_string (login_password b)))
                                (row_password user) = true)
      by (rewrite Hpw; exact Hcmp).
    rewrite (login_found env now b w user others He Hs Hup1 Hsel Hc).
    cbn zeta. rewrite (pool_query_up _ _ (Hup1' _)). reflexivity. }
  split; [|exact Hrun]. split.
  - intros Hok. unfold login, try_catch, bind in Hok.
    rewrite He, Hp in Hok. cbn [negb orb] in Hok.
    rewrite (pool_query_up _ _ Hup1) in Hok.
    destruct (fst (select_users (str (login_email b)) (db w)))
      as [|user others] eqn:Hsel; [discriminate Hok|].
    destruct (login_password b) as [pw|t] eqn:Hpw; [|discriminate Hok].
    cbn [bcrypt_compare_js ret] in Hok.
    destruct (bcrypt_compare pw (row_password user))
      eqn:Hcmp; [|discriminate Hok].
    exists user, others, pw. repeat split. exact Hcmp.
  - intros (user & others & pw & Hsel & Hpw & Hcmp).
    rewrite (Hrun user others pw Hsel Hpw Hcmp). reflexivity.
Qed.

End Accounts.

(* ================================================================== *)
(** ** The guard and the life of an access token *)

Section AccessTokens.

Context {J : JwtLib} {HJ : JwtLaws J} {B : Bcrypt}.

(** The guard looks at nothing but the second word of the header. *)
Lemma validateToken_same_word (env : Env) (now : Z) (h h' : string)
  (w : World) :
  h <> EmptyString -> h' <> EmptyString ->
  nth_error (split " " h) 1 = nth_error (split " " h') 1 ->
  validateToken env now (Some h) w = validateToken env now (Some h') w.
Proof.
  intros Hh Hh' Hw. unfold validateToken.
  rewrite (js_truthy_some _ Hh), (js_truthy_some _ Hh'). cbn [negb str].
  rewrite Hw. reflexivity.
Qed.

(** X13. The access token minted at clock [now] passes the guard at every
    clock before [now + JWT_EXPIRES_IN] and is answered 401 "Token
    expired" from then on. *)
Theorem access_token_window (env : Env) (now now' uid : Z) (mail : string)
  (w : World) :
  fst (validateToken env now'
         (Some ("Bearer " ++ generateAccessToken env now uid mail)) w) =
  if now' <? now + JWT_EXPIRES_IN env
  then Next (mkReqUser uid mail)
  else Responded (mkResponse 401 (ErrorBody "Token expired")).
Proof.
  unfold generateAccessToken.
  destruct (jwt_sign_word uid mail (JWT_SECRET env) (JWT_EXPIRES_IN env) now)
    as [Hne Hsp].
  rewrite (validateToken_bearer env now' _ w Hsp Hne).
  destruct (Z.ltb_spec now' (now + JWT_EXPIRES_IN env)) as [Hlt | Hge].
  - rewrite (jwt_verify_sign _ _ _ _ _ _ Hlt). reflexivity.
  - rewrite (jwt_verify_expired _ _ _ _ _ _ Hge). reflexivity.
Qed.

(** X14. The access token handed out by a renewal passes the guard for the
    user of the session that was renewed. *)
Theorem renewed_access_token_passes_guard (env : Env) (t0 t t' : Z)
  (w0 w w' : World) (v : UserView) (a r : string) :
  session_issued env t0 w0 v a r w ->
  up 1 w ->
  t < t0 + JWT_REFRESH_EXPIRES_IN env ->
  t' < t + JWT_EXPIRES_IN env ->
  exists a2,
    fst (refresh env t (Some r) w) = mkResponse 200 (AccessBody a2) /\
    validateToken env t' (Some ("Bearer " ++ a2)) w' =
    (Next (mkReqUser (view_id v) (view_email v)), w').
Proof.
  intros Hs Hup Ht Ht'.
  pose proof (session_has_record _ _ _ _ _ _ _ Hs) as Hrec.
  apply session_issued_inv in Hs as (_ & -> & _).
  exists (generateAccessToken env t (view_id v) (view_email v)). split.
  - rewrite (refresh_issued env t0 t _ _ w Hrec Ht Hup). reflexivity.
  - apply guard_accepts_access_token, Ht'.
Qed.

(** X15. Logging out revokes the refresh token, not the access token:
    after [logout] with a session's refresh token, renewal with it is
    answered 401 while the session's access token still passes the guard
    until it expires. *)
Theorem access_token_outlives_logout (env : Env) (t0 t : Z)
  (w0 w : World) (v : UserView) (a r : string) :
  session_issued env t0 w0 v a r w ->
  up 2 w ->
  t < t0 + JWT_EXPIRES_IN env ->
  status (fst (refresh env t (Some r) (snd (logout (Some r) w)))) = 401 /\
  fst (validateToken env t (Some ("Bearer " ++ a)) (snd (logout (Some r) w)))
  = Next (mkReqUser (view_id v) (view_email v)).
Proof.
  intros Hs Hup2 Ht.
  apply session_issued_inv in Hs as (-> & -> & _).
  assert (Hup1 : up 1 w) by (apply (up_le 1 2); [lia | exact Hup2]).
  destruct (up_S 1 w Hup2) as [_ Hup1'].
  set (r := generateRefreshToken env t0 (view_id v) (view_email v)).
  assert (Htr : js_truthy (Some r) = true)
    by (apply js_truthy_some, jwt_sign_word).
  split.
  - rewrite (logout_up (Some r) w Htr Hup1). cbn [snd str].
    destruct (jwt_verify r (JWT_REFRESH_SECRET env) t) as [e|p] eqn:Hv.
    + rewrite (refresh_rejected env t (Some r) _ e Htr Hv). reflexivity.
    + rewrite (refresh_verified env t (Some r) _ p Htr Hv (Hup1' _)).
      cbn [fst db str].
      destruct (select_refresh_token_nil r (userId p)
                  (snd (delete_refresh_token r (db w)))) as [_ Hnil].
      rewrite (Hnil (delete_refresh_token_gone r (userId p) (db w))).
      reflexivity.
  - rewrite guard_accepts_access_token by exact Ht. reflexivity.
Qed.

(** X16. The guard reads only the second blank-separated word of the
    header: whatever the first word, and whatever follows a further blank,
    the outcome is that of "Bearer <word>". *)
Theorem guard_reads_second_word (env : Env) (now : Z)
  (scheme tok rest : string) (w : World) :
  lacks " " scheme = true ->
  lacks " " tok = true ->
  validateToken env now (Some (scheme ++ " " ++ tok)) w =
  validateToken env now (Some ("Bearer " ++ tok)) w /\
  validateToken env now (Some (scheme ++ " " ++ tok ++ " " ++ rest)) w =
  validateToken env now (Some ("Bearer " ++ tok)) w.
Proof.
  intros Hs Ht.
  assert (Hb : nth_error (split " " ("Bearer " ++ tok)) 1 = Some tok)
    by (apply bearer_token, Ht).
  assert (Hne : forall x, scheme ++ " " ++ x <> EmptyString)
    by (intros x; destruct scheme; discriminate).
  split; apply validateToken_same_word; try apply Hne; try discriminate;
    rewrite Hb.
  - change (scheme ++ " " ++ tok) with (scheme ++ String " " tok).
    rewrite (split_app " " scheme tok Hs), (split_word " " tok Ht).
    reflexivity.
  - change (scheme ++ " " ++ tok ++ " " ++ rest)
      with (scheme ++ String " " (tok ++ String " " rest)).
    rewrite (split_app " " scheme _ Hs), (split_app " " tok rest Ht).
    reflexivity.
Qed.

(** X17. A header without a blank, such as a token sent without its
    scheme, is answered 401 "Invalid token format" and never verified. *)
Theorem guard_rejects_bare_token (env : Env) (now : Z) (h : string)
  (w : World) :
  h <> EmptyString ->
  lacks " " h = true ->
  validateToken env now (Some h) w =
  (Responded (mkResponse 401 (ErrorBody "Invalid token format")), w).
Proof.
  intros Hne Hsp. unfold validateToken, try_catch.
  rewrite (js_truthy_some _ Hne). cbn [negb str].
  rewrite (split_word " " h Hsp). reflexivity.
Qed.

End AccessTokens.

(* ================================================================== *)
(** ** These properties at work on the symbolic library *)

Module Cases.
Import Symbolic SymbolicFacts Fixtures.

#[export] Instance bcrypt_laws : BcryptLaws bcrypt.
Proof.
  constructor. intros password rounds salt. cbn. apply String.eqb_refl.
Qed.

Lemma bob_signed_up :
  issues (signup env0 1000 "salt" bob_signup) w0 (view_of bob)
         (generateAccessToken env0 1000 43 "b@x.com")
         (generateRefreshToken env0 1000 43 "b@x.com") w_bob.
Proof. exists 201, "User created successfully". reflexivity. Defined.

Lemma bob_complete : complete bob_signup.
Proof. repeat split. Defined.

Lemma internal_error_iff_query_failed_witness :
  fst (login env0 1000 alice_login (mkWorld db0 [false; true])) =
  internal_error /\
  fst (login env0 1000 (mkLoginBody (Some "a@x.com") (JsOther true)) w0) =
  internal_error.
Proof.
  split.
  - apply (proj2 (proj1 (proj2
             (internal_error_iff_query_failed env0 1000 "salt" bob_signup
                alice_login None (mkWorld db0 [false; true]))))).
    left. cbv. right. left. reflexivity.
  - apply (proj2 (proj1 (proj2
             (internal_error_iff_query_failed env0 1000 "salt" bob_signup
                (mkLoginBody (Some "a@x.com") (JsOther true)) None w0)))).
    right. repeat split. cbv. discriminate.
Defined.

Lemma signup_validation_witness :
  signup env0 1000 "salt"
         (mkSignupBody (Some "c@x.com") (JsString "pw") (Some "Cy") None)
         (mkWorld db0 [true]) =
  (mkResponse 400 (ErrorBody "All fields are required"),
   mkWorld db0 [true]).
Proof.
  pose proof (signup_validation env0 1000 "salt"
                (mkSignupBody (Some "c@x.com") (JsString "pw") (Some "Cy") None)
                (mkWorld db0 [true])) as [Hiff Hrun].
  apply Hrun, Hiff. reflexivity.
Defined.

Lemma login_validation_witness :
  login env0 1000 (mkLoginBody (Some "a@x.com") (JsString EmptyString))
        (mkWorld db0 [true]) =
  (mkResponse 400 (ErrorBody "Email and password are required"),
   mkWorld db0 [true]).
Proof.
  pose proof (login_validation env0 1000
                (mkLoginBody (Some "a@x.com") (JsString EmptyString))
                (mkWorld db0 [true])) as [Hiff Hrun].
  apply Hrun, Hiff. reflexivity.
Defined.

Lemma handler_statuses_witness :
  status (fst (login env0 1000 alice_login w0)) = 200.
Proof.
  apply (proj2 (proj1 (proj2
           (handler_statuses env0 1000 "salt" bob_signup alice_login None
                             w0)))).
  cbv. discriminate.
Defined.

Lemma signup_keeps_emails_unique_witness :
  emails_unique (db w_bob).
Proof.
  apply (signup_keeps_emails_unique env0 1000 "salt" bob_signup w0).
  unfold emails_unique. cbn. repeat constructor. intros [].
Defined.

Lemma signup_conflict_witness :
  signup env0 2000 "pepper"
         (mkSignupBody (Some "a@x.com") (JsOther true) (Some "Al") (Some "Z")) w0 =
  (mkResponse 409 (ErrorBody "User already exists"), w0).
Proof.
  apply (signup_conflict env0 2000 "pepper"
           (mkSignupBody (Some "a@x.com") (JsOther true) (Some "Al") (Some "Z"))
           w0 alice).
  - repeat split.
  - reflexivity.
  - left. reflexivity.
  - reflexivity.
Defined.

Lemma signup_nonstring_password_fails_witness :
  signup env0 1000 "salt"
         (mkSignupBody (Some "c@x.com") (JsOther true) (Some "Cy") (Some "C"))
         w0 =
  (mkResponse 500 (ErrorBody "Internal server error"), w0).
Proof.
  apply (signup_nonstring_password_fails env0 1000 "salt"
           (mkSignupBody (Some "c@x.com") (JsOther true) (Some "Cy")
                         (Some "C")) w0).
  - repeat split.
  - reflexivity.
  - reflexivity.
  - intros u [<- | []]. cbv. discriminate.
Defined.

Lemma signup_creates_account_witness :
  fst (signup env0 1000 "salt" bob_signup w0) =
  mkResponse 201
    (SessionBody "User created successfully" (view_of bob)
       (generateAccessToken env0 1000 43 "b@x.com")
       (generateRefreshToken env0 1000 43 "b@x.com")).
Proof.
  rewrite (signup_creates_account env0 1000 "salt" bob_signup w0
             bob_complete eq_refl eq_refl).
  - reflexivity.
  - intros u [<- | []]. cbv. discriminate.
Defined.

Lemma signup_then_login_witness :
  fst (login env0 1100 bob_login w_bob) =
  mkResponse 200
    (SessionBody "Login successful" (view_of bob)
       (generateAccessToken env0 1100 43 "b@x.com")
       (generateRefreshToken env0 1100 43 "b@x.com")).
Proof.
  exact (signup_then_login env0 1000 1100 "salt" bob_signup w0 w_bob
           (view_of bob) _ _ bob_signed_up eq_refl).
Defined.

Lemma signup_twice_conflict_witness :
  fst (signup env0 1200 "other"
         (mkSignupBody (Some "b@x.com") (JsString "pw2") (Some "Rob") (Some "R"))
         w_bob) =
  mkResponse 409 (ErrorBody "User already exists").
Proof.
  apply (signup_twice_conflict env0 1000 1200 "salt" "other" bob_signup
           (mkSignupBody (Some "b@x.com") (JsString "pw2") (Some "Rob") (Some "R"))
           w0 w_bob (view_of bob) _ _ bob_signed_up).
  - repeat split.
  - reflexivity.
  - reflexivity.
Defined.

Lemma login_ok_iff_witness :
  status (fst (login env0 1000 alice_login w0)) = 200 /\
  status (fst (login env0 1000
                     (mkLoginBody (Some "a@x.com") (JsString "wrong")) w0))
  <> 200.
Proof.
  split.
  - apply (proj1 (login_ok_iff env0 1000 alice_login w0
                    eq_refl eq_refl eq_refl)).
    exists alice, [], "pw". repeat split.
  - intros H.
    apply (proj1 (login_ok_iff env0 1000
                    (mkLoginBody (Some "a@x.com") (JsString "wrong")) w0
                    eq_refl eq_refl eq_refl)) in H
      as (user & others & pw & Hsel & Hpw & Hcmp).
    cbv in Hsel. inv Hsel. inv Hpw. cbv in Hcmp. discriminate.
Defined.

Lemma access_token_window_witness :
  fst (validateToken env0 1899 (Some ("Bearer " ++ access0)) w0) =
  Next (mkReqUser 42 "a@x.com") /\
  fst (validateToken env0 1900 (Some ("Bearer " ++ access0)) w0) =
  Responded (mkResponse 401 (ErrorBody "Token expired")).
Proof.
  split.
  - exact (access_token_window env0 1000 1899 42 "a@x.com" w0).
  - exact (access_token_window env0 1000 1900 42 "a@x.com" w0).
Defined.

Lemma renewed_access_token_passes_guard_witness :
  exists a2,
    fst (refresh env0 1500 (Some refresh0) w1) = mkResponse 200 (AccessBody a2)
    /\ validateToken env0 2000 (Some ("Bearer " ++ a2)) w0 =
       (Next (mkReqUser 42 "a@x.com"), w0).
Proof.
  exact (renewed_access_token_passes_guard env0 1000 1500 2000 w0 w1 w0
           (view_of alice) access0 refresh0
           Scenario.alice_session_1000 eq_refl eq_refl eq_refl).
Defined.

Lemma access_token_outlives_logout_witness :
  status (fst (refresh env0 1500 (Some refresh0)
                       (snd (logout (Some refresh0) w1)))) = 401 /\
  fst (validateToken env0 1500 (Some ("Bearer " ++ access0))
                     (snd (logout (Some refresh0) w1)))
  = Next (mkReqUser 42 "a@x.com").
Proof.
  exact (access_token_outlives_logout env0 1000 1500 w0 w1
           (view_of alice) access0 refresh0
           Scenario.alice_session_1000 eq_refl eq_refl).
Defined.

Lemma guard_reads_second_word_witness :
  validateToken env0 1500 (Some ("Token " ++ access0 ++ " and more")) w0 =
  validateToken env0 1500 (Some ("Bearer " ++ access0)) w0.
Proof.
  apply (proj2 (guard_reads_second_word env0 1500 "Token" access0 "and more"
                  w0 eq_refl eq_refl)).
Defined.

Lemma guard_rejects_bare_token_witness :
  validateToken env0 1500 (Some access0) w0 =
  (Responded (mkResponse 401 (ErrorBody "Invalid token format")), w0).
Proof.
  apply (guard_rejects_bare_token env0 1500 access0 w0).
  - discriminate.
  - reflexivity.
Defined.

End Cases.
